(** * Relevance ranking of document paragraphs: a model of [src/main.py]

    The development embeds the Python program function by function:
    - Python's string primitives used by the program ([lower], [strip],
      [split], [rsplit], slicing, [isalnum], [endswith]);
    - [preprocess_text], [get_keywords], [calculate_relevance_score],
      [get_section_title_from_text];
    - [extract_text_from_pdf], [intelligent_document_analyst] and the
      container entry point, as state-passing code over an explicit world
      (output directory, console streams, clock).

    Conventions.
    - A Python [str] is a Rocq [string]; its characters are the code points
      0..255, classified as Python classifies that range.
    - A Python [set] of strings is a [gset string].
    - The relevance score, a Python [float] obtained by one true division
      [len(a) / len(b)] of two naturals, is the exact rational [a # b].
      True division is correctly rounded, hence monotone, so order and the
      bounds 0 and 1 are those of the exact quotient.
    - NLTK's [word_tokenize] and [stopwords.words('english')] are library
      code: they are Section variables. *)

From Stdlib Require Import QArith Ascii NArith Lia.
From stdpp Require Import gmap strings list sorting.

Local Open Scope nat_scope.

(** ** Characters *)

Module Char.

Definition ord (c : ascii) : N := N_of_ascii c.

Definition between (lo hi : N) (c : ascii) : bool :=
  ((lo <=? ord c) && (ord c <=? hi))%N.

(** [c.isspace()], also the class [\s] of [re] on [str] patterns. *)
Definition isspace (c : ascii) : bool :=
  between 9 13 c || between 28 32 c || between 133 133 c
  || between 160 160 c.

(** [c.lower()]. *)
Definition lower (c : ascii) : ascii :=
  if between 65 90 c
     || (between 192 222 c && negb (between 215 215 c))
  then ascii_of_N (ord c + 32)
  else c.

(** The class [[a-z0-9]] of the regular expression in [preprocess_text]. *)
Definition is_az09 (c : ascii) : bool :=
  between 97 122 c || between 48 57 c.

(** [c.isalnum()]. *)
Definition isalnum (c : ascii) : bool :=
  between 48 57 c || between 65 90 c || between 97 122 c
  || between 170 170 c || between 178 179 c || between 181 181 c
  || between 185 186 c || between 188 190 c || between 192 214 c
  || between 216 246 c || between 248 255 c.

Definition newline : ascii := "010"%char.
Definition space : ascii := " "%char.
Definition tab : ascii := "009"%char.

End Char.

(** ** Python string primitives *)

Module Str.

Definition NL : string := String Char.newline "".
Definition NLNL : string := String Char.newline NL.

Definition is_empty (s : string) : bool :=
  match s with "" => true | _ => false end.

Fixpoint len (s : string) : nat :=
  match s with "" => 0 | String _ s' => S (len s') end.

Fixpoint map (f : ascii -> ascii) (s : string) : string :=
  match s with "" => "" | String c s' => String (f c) (map f s') end.

Fixpoint filter (f : ascii -> bool) (s : string) : string :=
  match s with
  | "" => ""
  | String c s' => if f c then String c (filter f s') else filter f s'
  end.

Fixpoint forallb (f : ascii -> bool) (s : string) : bool :=
  match s with "" => true | String c s' => f c && forallb f s' end.

Fixpoint existsb (f : ascii -> bool) (s : string) : bool :=
  match s with "" => false | String c s' => f c || existsb f s' end.

(** [s.lower()] *)
Definition lower (s : string) : string := map Char.lower s.

(** [s.isalnum()]: every character alphanumeric, and at least one. *)
Definition isalnum (s : string) : bool :=
  negb (is_empty s) && forallb Char.isalnum s.

(** [s.lstrip()], [s.rstrip()], [s.strip()] *)
Fixpoint lstrip (s : string) : string :=
  match s with
  | "" => ""
  | String c s' => if Char.isspace c then lstrip s' else s
  end.

Fixpoint rstrip (s : string) : string :=
  match s with
  | "" => ""
  | String c s' =>
      match rstrip s' with
      | "" => if Char.isspace c then "" else String c ""
      | r => String c r
      end
  end.

Definition strip (s : string) : string := rstrip (lstrip s).

(** [s.startswith(p)] *)
Fixpoint startswith (s p : string) : bool :=
  match p, s with
  | "", _ => true
  | String a p', String b s' =>
      if Ascii.eqb a b then startswith s' p' else false
  | String _ _, "" => false
  end.

(** [s.split(sep)] for a non-empty [sep] (every call of the program
    passes a non-empty literal; Python raises [ValueError] on an empty
    one).  [skip] counts the characters of a separator occurrence that
    are still to be passed over. *)
Fixpoint split_from (sep : string) (skip : nat) (s : string) : list string :=
  match s with
  | "" => [""]
  | String c s' =>
      match skip with
      | S k => split_from sep k s'
      | O =>
          if startswith s sep
          then "" :: split_from sep (len sep - 1) s'
          else match split_from sep 0 s' with
               | p :: ps => String c p :: ps
               | [] => [String c ""]
               end
      end
  end.

Definition split (s sep : string) : list string := split_from sep 0 s.

(** [s.rsplit(sep, 1)] for a one-character [sep]: the text before and
    after the last occurrence, or [None] when there is none. *)
Fixpoint rpartition (sep : ascii) (s : string) : option (string * string) :=
  match s with
  | "" => None
  | String c s' =>
      match rpartition sep s' with
      | Some (before, after) => Some (String c before, after)
      | None => if Ascii.eqb c sep then Some ("", s') else None
      end
  end.

Definition rsplit1 (s : string) (sep : ascii) : list string :=
  match rpartition sep s with
  | Some (before, after) => [before; after]
  | None => [s]
  end.

(** [s[:n]] for [n >= 0] *)
Fixpoint take (n : nat) (s : string) : string :=
  match n, s with
  | S k, String c s' => String c (take k s')
  | _, _ => ""
  end.

(** [s[n:]] for [n >= 0] *)
Fixpoint drop (n : nat) (s : string) : string :=
  match n, s with
  | S k, String _ s' => drop k s'
  | _, _ => s
  end.

(** [s.endswith(p)] *)
Definition endswith (s p : string) : bool :=
  (len p <=? len s) && String.eqb (drop (len s - len p) s) p.

(** [c * n] for a one-character string [c] *)
Fixpoint replicate (n : nat) (c : ascii) : string :=
  match n with O => "" | S k => String c (replicate k c) end.

End Str.

(** Element [l[0]] of a list of strings known to be non-empty. *)
Definition first (l : list string) : string := hd "" l.

(** ** Helper functions of the program *)

(** [preprocess_text]: lower-case, then [re.sub(r'[^a-z0-9\s]', '', text)]. *)
Definition keep_char (c : ascii) : bool := Char.is_az09 c || Char.isspace c.

Definition preprocess_text (text : string) : string :=
  let text := Str.lower text in
  let text := Str.filter keep_char text in
  text.

(** [get_section_title_from_text(text, max_length=100)] *)
Definition default_max_length : nat := 100.

Definition first_line_of (text : string) : string :=
  Str.strip (first (Str.split (Str.strip text) Str.NL)).

Definition get_section_title_from_text (text : string) (max_length : nat)
  : string :=
  if Str.is_empty text then "Untitled Section"
  else
    let first_line := first_line_of text in
    if negb (Str.is_empty first_line) then
      if max_length <? Str.len first_line
      then first (Str.rsplit1 (Str.take max_length first_line) Char.space)
           +:+ "..."
      else first_line
    else "Relevant Content".

(** ** The lexical resource (NLTK) and the functions that use it *)

Section Lexical.

(** [nltk.tokenize.word_tokenize] and [stopwords.words('english')]. *)
Variable word_tokenize : string -> list string.
Variable stopwords_english : list string.

(** [get_keywords(description)] *)
Definition get_keywords (description : string) : gset string :=
  let stop_words : gset string := list_to_set stopwords_english in
  let words := word_tokenize (Str.lower description) in
  let keywords :=
    List.filter
      (fun word => Str.isalnum word && negb (bool_decide (word ∈ stop_words)))
      words in
  list_to_set keywords.

(** [calculate_relevance_score(text, keywords)] *)
Definition calculate_relevance_score (text : string) (keywords : gset string)
  : Q :=
  if Str.is_empty text || bool_decide (keywords = ∅) then 0%Q
  else
    let processed_text := preprocess_text text in
    let text_words := word_tokenize processed_text in
    if bool_decide (text_words = []) then 0%Q
    else
      let unique_matched_in_block : gset string :=
        list_to_set
          (List.filter (fun word => bool_decide (word ∈ keywords)) text_words) in
      (Z.of_nat (size unique_matched_in_block)
         # Pos.of_nat (length text_words))%Q.

End Lexical.

(** ** Data model *)

(** One entry of [pages_text]. *)
Record PageData := {
  pd_page_number : nat;
  pd_text : string
}.

(** One entry of [all_extracted_content]. *)
Record ContentUnit := {
  document : string;
  page_number : nat;
  text_content : string;
  paragraph_index : nat
}.

(** A content unit after [item['score'] = score]. *)
Record ScoredUnit := {
  item : ContentUnit;
  score : Q
}.

(** One entry of [output_sections]. *)
Record RankedSection := {
  rs_document : string;
  rs_page_number : nat;
  section_title : string;
  importance_rank : nat
}.

(** One entry of [output_sub_sections]. *)
Record Excerpt := {
  ex_document : string;
  ex_page_number : nat;
  refined_text : string
}.

Record Metadata := {
  input_document : string;
  persona : string;
  job_to_be_done : string;
  processing_timestamp : nat
}.

(** The dictionary returned by [intelligent_document_analyst]. *)
Record ResultSet := {
  metadata : Metadata;
  extracted_sections : list RankedSection;
  sub_section_analysis : list Excerpt
}.

(** What [pdfplumber] makes of a path: opening the file or extracting a
    page raises, or every page gives [None] or a [str]. *)
Inductive pdf :=
| Unreadable
| Pages (texts : list (option string)).

(** ** The world of the container *)

Inductive message :=
| MsgStarted
| MsgUsingPersona (persona : string)
| MsgUsingJob (job : string)
| MsgNoPdf
| MsgProcessing (filename : string)
| MsgGenerated (output_filename : string)
| MsgFailed (filename : string)
| MsgExtractError (pdf_path : string)
| MsgFinished.

(** What the program reads and never changes. *)
Record environment := {
  getenv : string -> option string;
  listdir : list string;
  pdfplumber_open : string -> pdf;
  can_write : string -> bool
}.

(** What the program changes: files written, console streams, clock. *)
Record world := {
  files : gmap string ResultSet;
  stdout : list message;
  stderr : list message;
  clock : nat
}.

Definition IO (A : Type) : Type := world -> A * world.

Definition ret {A} (a : A) : IO A := fun w => (a, w).

Definition bind {A B} (m : IO A) (k : A -> IO B) : IO B :=
  fun w => let (a, w') := m w in k a w'.

Notation "'do' x <- m ; k" := (bind m (fun x => k))
  (at level 20, x name, m at level 100, k at level 200, only parsing).
Notation "'exec' m ; k" := (bind m (fun _ => k))
  (at level 20, m at level 100, k at level 200, only parsing).

Definition print_out (msg : message) : IO unit :=
  fun w => (tt, {| files := files w; stdout := stdout w ++ [msg];
                   stderr := stderr w; clock := clock w |}).

Definition print_err (msg : message) : IO unit :=
  fun w => (tt, {| files := files w; stdout := stdout w;
                   stderr := stderr w ++ [msg]; clock := clock w |}).

(** [datetime.now()] *)
Definition now : IO nat :=
  fun w => (clock w, {| files := files w; stdout := stdout w;
                        stderr := stderr w; clock := S (clock w) |}).

(** [with open(path, 'w') as f: json.dump(result, f)]; [false] when
    opening raises. *)
Definition write_json (env : environment) (path : string) (r : ResultSet)
  : IO bool :=
  fun w =>
    if can_write env path
    then (true, {| files := <[path := r]> (files w); stdout := stdout w;
                   stderr := stderr w; clock := clock w |})
    else (false, w).

Fixpoint for_each {A} (body : A -> IO unit) (l : list A) : IO unit :=
  match l with
  | [] => ret tt
  | x :: l' => exec body x; for_each body l'
  end.

(** ** os.path *)

Definition INPUT_DIR : string := "/app/input".
Definition OUTPUT_DIR : string := "/app/output".

Definition slash : ascii := "/"%char.
Definition dot : ascii := "."%char.

Definition path_join (a b : string) : string :=
  if Str.startswith b "/" then b
  else if Str.is_empty a || Str.endswith a "/" then a +:+ b
  else a +:+ "/" +:+ b.

Definition basename (p : string) : string :=
  match Str.rpartition slash p with
  | Some (_, after) => after
  | None => p
  end.

(** [os.path.splitext(p)[0]] *)
Definition splitext_root (p : string) : string :=
  let name_start :=
    match Str.rpartition slash p with
    | Some (before, _) => S (Str.len before)
    | None => 0
    end in
  match Str.rpartition dot p with
  | Some (before, _) =>
      if (name_start <=? Str.len before)
         && negb (Str.forallb (Ascii.eqb dot) (Str.drop name_start before))
      then before
      else p
  | None => p
  end.

(** ** Text extraction *)

(** The loop of [extract_text_from_pdf]: [i] is the index of [enumerate],
    a page is kept when its text is truthy (neither [None] nor empty). *)
Fixpoint collect_pages (i : nat) (texts : list (option string))
  : list PageData :=
  match texts with
  | [] => []
  | text :: rest =>
      match text with
      | Some (String _ _ as t) =>
          {| pd_page_number := i + 1; pd_text := t |}
            :: collect_pages (S i) rest
      | _ => collect_pages (S i) rest
      end
  end.

(** [extract_text_from_pdf(pdf_path)]: the handler of the [try] reports on
    [stderr] and returns the empty list. *)
Definition extract_text_from_pdf (env : environment) (pdf_path : string)
  : IO (list PageData) :=
  match pdfplumber_open env pdf_path with
  | Pages texts => ret (collect_pages 0 texts)
  | Unreadable => exec print_err (MsgExtractError pdf_path); ret []
  end.

(** ** Segmentation: the first loop of [intelligent_document_analyst] *)

(** The list [paragraphs] of one page, with the fallback to the whole
    trimmed page. *)
Definition page_paragraphs (text : string) : list string :=
  let paragraphs :=
    List.map Str.strip
      (List.filter (fun p => negb (Str.is_empty (Str.strip p)))
         (Str.split text Str.NLNL)) in
  if bool_decide (paragraphs = []) then [Str.strip text] else paragraphs.

(** The inner loop: one unit per truthy paragraph. *)
Definition page_units (doc_name : string) (page_data : PageData)
  : list ContentUnit :=
  concat
    (imap
       (fun para_idx paragraph_text =>
          if Str.is_empty paragraph_text then []
          else [ {| document := doc_name;
                    page_number := pd_page_number page_data;
                    text_content := paragraph_text;
                    paragraph_index := para_idx |} ])
       (page_paragraphs (pd_text page_data))).

Definition all_extracted_content (doc_name : string)
  (pages_data : list PageData) : list ContentUnit :=
  concat (List.map (page_units doc_name) pages_data).

(** ** Ranking *)

(** [scored_content.sort(key=lambda x: x["score"], reverse=True)].
    Python's sort is stable, also under [reverse=True]; the result of a
    stable sort is determined by the key order, and inserting from the
    right, before the first element whose score is not larger, computes
    it. *)
Fixpoint insert_by_score (x : ScoredUnit) (l : list ScoredUnit)
  : list ScoredUnit :=
  match l with
  | [] => [x]
  | y :: l' =>
      if Qle_bool (score y) (score x) then x :: l
      else y :: insert_by_score x l'
  end.

Definition sort_by_score_desc (l : list ScoredUnit) : list ScoredUnit :=
  foldr insert_by_score [] l.

Definition max_sections_to_output : nat := 10.

(** [output_sections] and [output_sub_sections] *)
Definition output_sections (selected : list ScoredUnit) : list RankedSection :=
  imap
    (fun i it =>
       {| rs_document := document (item it);
          rs_page_number := page_number (item it);
          section_title :=
            get_section_title_from_text (text_content (item it))
              default_max_length;
          importance_rank := i + 1 |})
    selected.

Definition output_sub_sections (selected : list ScoredUnit) : list Excerpt :=
  List.map
    (fun it =>
       {| ex_document := document (item it);
          ex_page_number := page_number (item it);
          refined_text := text_content (item it) |})
    selected.

Section Pipeline.

Variable word_tokenize : string -> list string.
Variable stopwords_english : list string.

Definition combined_keywords (persona_description job_to_be_done : string)
  : gset string :=
  let persona_keywords :=
    get_keywords word_tokenize stopwords_english persona_description in
  let job_keywords :=
    get_keywords word_tokenize stopwords_english job_to_be_done in
  persona_keywords ∪ job_keywords.

(** The second loop: units with a positive score, in segmentation
    order. *)
Fixpoint scored_content (keywords : gset string) (units : list ContentUnit)
  : list ScoredUnit :=
  match units with
  | [] => []
  | it :: rest =>
      let score :=
        calculate_relevance_score word_tokenize (text_content it) keywords in
      if negb (Qle_bool score 0)
      then {| item := it; score := score |} :: scored_content keywords rest
      else scored_content keywords rest
  end.

(** [scored_content[:max_sections_to_output]] after the sort. *)
Definition selected_units (keywords : gset string)
  (units : list ContentUnit) : list ScoredUnit :=
  take max_sections_to_output
    (sort_by_score_desc (scored_content keywords units)).

(** [intelligent_document_analyst(document_path, persona_description,
    job_to_be_done)] *)
Definition intelligent_document_analyst (env : environment)
  (document_path persona_description job_to_be_done : string)
  : IO ResultSet :=
  let doc_name := basename document_path in
  do pages_data <- extract_text_from_pdf env document_path;
  let units := all_extracted_content doc_name pages_data in
  let keywords := combined_keywords persona_description job_to_be_done in
  let selected := selected_units keywords units in
  do timestamp <- now;
  ret {| metadata :=
           {| input_document := doc_name;
              persona := persona_description;
              job_to_be_done := job_to_be_done;
              processing_timestamp := timestamp |};
         extracted_sections := output_sections selected;
         sub_section_analysis := output_sub_sections selected |}.

(** The body of the loop over [pdf_files], with its [try]. *)
Definition process_file (env : environment) (persona job filename : string)
  : IO unit :=
  let input_path := path_join INPUT_DIR filename in
  let output_filename := splitext_root filename +:+ ".json" in
  let output_path := path_join OUTPUT_DIR output_filename in
  exec print_out (MsgProcessing filename);
  do analysis_result <-
    intelligent_document_analyst env input_path persona job;
  do written <- write_json env output_path analysis_result;
  if written then print_out (MsgGenerated output_filename)
  else print_err (MsgFailed filename).

(** The container execution block. *)
Definition main (env : environment) : IO unit :=
  exec print_out MsgStarted;
  let persona :=
    default "Default persona: a general researcher"
      (getenv env "PERSONA_DESCRIPTION") in
  let job :=
    default "Default job: find the most relevant sections"
      (getenv env "JOB_TO_BE_DONE") in
  exec print_out (MsgUsingPersona persona);
  exec print_out (MsgUsingJob job);
  let pdf_files :=
    List.filter (fun f => Str.endswith (Str.lower f) ".pdf") (listdir env) in
  if bool_decide (pdf_files = []) then print_out MsgNoPdf
  else
    exec for_each (process_file env persona job) pdf_files;
    print_out MsgFinished.

End Pipeline.

(** ** A lexical resource to run the program on

    A tokenizer that splits at white space and a three-word stop list
    stand for NLTK's where a theorem is evaluated on a concrete input. *)
Definition sample_tokenize : string -> list string := String.words.
Definition sample_stopwords : list string := ["a"; "the"; "of"].

Definition initial_world : world :=
  {| files := ∅; stdout := []; stderr := []; clock := 0 |}.

(** ** The title as the specification words it

    "Take the first line of its text, trimmed; if that line exceeds a
    configured maximum length, truncate to the maximum and cut back to the
    last whitespace boundary, appending an ellipsis marker; if the first
    line is empty after trimming, fall back to a constant placeholder
    title."  White space is what [strip] removes; a prefix without any is
    left whole. *)
Fixpoint rpartition_whitespace (s : string) : option (string * string) :=
  match s with
  | "" => None
  | String c s' =>
      match rpartition_whitespace s' with
      | Some (before, after) => Some (String c before, after)
      | None => if Char.isspace c then Some ("", s') else None
      end
  end.

Definition spec_cut_back (s : string) : string :=
  match rpartition_whitespace s with
  | Some (before, _) => before
  | None => s
  end.

Definition spec_title (placeholder text : string) (max_length : nat) : string :=
  let first_line := first_line_of text in
  if Str.is_empty first_line then placeholder
  else if max_length <? Str.len first_line
       then spec_cut_back (Str.take max_length first_line) +:+ "..."
       else first_line.

(** [c not in s] *)
Definition lacks (c : ascii) (s : string) : bool :=
  Str.forallb (fun x => negb (Ascii.eqb x c)) s.

(** A first line of 106 characters with a tab after its last space. *)
Definition tabbed_line : string :=
  "ab cd" +:+ String Char.tab (Str.replicate 100 "x").

(** A text with a character that [strip] would keep. *)
Definition has_content (s : string) : bool :=
  Str.existsb (fun c => negb (Char.isspace c)) s.

(** Segmentation order: page order, then paragraph order within the page. *)
Definition segmented_before (a b : ContentUnit) : Prop :=
  page_number a < page_number b
  \/ (page_number a = page_number b /\ paragraph_index a < paragraph_index b).

(** Rank order: a larger score first, and segmentation order among equal
    scores. *)
Definition ranked_before (a b : ScoredUnit) : Prop :=
  (score b < score a)%Q
  \/ ((score a == score b)%Q /\ segmented_before (item a) (item b)).

(** A page whose text is one space. *)
Definition blank_page : PageData := {| pd_page_number := 1; pd_text := " " |}.

(** An input directory with the single file "bad.pdf", which [pdfplumber]
    cannot read. *)
Definition unreadable_env : environment :=
  {| getenv := fun _ => None;
     listdir := ["bad.pdf"];
     pdfplumber_open := fun _ => Unreadable;
     can_write := fun _ => true |}.

(** An input directory with one readable file of one page. *)
Definition sample_page : string :=
  "Climate risk." +:+ Str.NLNL +:+ "Unrelated filler text about cooking.".

Definition sample_env : environment :=
  {| getenv := fun _ => None;
     listdir := ["report.pdf"];
     pdfplumber_open := fun _ => Pages [Some sample_page];
     can_write := fun _ => true |}.

(** An input directory without any PDF file. *)
Definition no_pdf_env : environment :=
  {| getenv := fun _ => None;
     listdir := ["notes.txt"; "data.csv"];
     pdfplumber_open := fun _ => Unreadable;
     can_write := fun _ => true |}.

(** The readable sample document under an output directory that cannot be
    written. *)
Definition read_only_env : environment :=
  {| getenv := fun _ => None;
     listdir := ["report.pdf"];
     pdfplumber_open := fun _ => Pages [Some sample_page];
     can_write := fun _ => false |}.

(** * Properties *)

(** ** Strings *)

Lemma is_empty_true (s : string) : Str.is_empty s = true <-> s = "".
Proof. destruct s; simpl; split; congruence. Qed.

Lemma is_empty_false (s : string) : Str.is_empty s = false <-> s <> "".
Proof. destruct s; simpl; split; congruence. Qed.

Lemma rpartition_none (c : ascii) (s : string) :
  Str.rpartition c s = None -> lacks c s = true.
Proof.
  unfold lacks.
  induction s as [|y s IH]; simpl; [reflexivity|].
  destruct (Str.rpartition c s) as [[b a]|]; [discriminate|].
  destruct (Ascii.eqb y c); [discriminate|]. intros _. apply IH.
  reflexivity.
Qed.

Lemma rpartition_some (c : ascii) (s before after : string) :
  Str.rpartition c s = Some (before, after) ->
  s = before +:+ String c after /\ lacks c after = true.
Proof.
  revert before after.
  induction s as [|x s IH]; intros before after; simpl; [discriminate|].
  destruct (Str.rpartition c s) as [[b a]|] eqn:E.
  - intros [= <- <-]. destruct (IH b a eq_refl) as [-> Ha].
    split; [reflexivity | exact Ha].
  - destruct (Ascii.eqb x c) eqn:Ex; [|discriminate].
    intros [= <- <-]. apply Ascii.eqb_eq in Ex as ->.
    split; [reflexivity | apply rpartition_none, E].
Qed.

(** ** [preprocess_text] *)

Lemma keep_char_lower (c : ascii) : keep_char c = true -> Char.lower c = c.
Proof.
  destruct c as [[] [] [] [] [] [] [] []]; vm_compute; congruence.
Qed.

Lemma filter_keep_fixed (s : string) :
  Str.forallb keep_char s = true -> Str.filter keep_char s = s.
Proof.
  induction s as [|c s IH]; simpl; [reflexivity|].
  intros [Hc Hs]%andb_prop. rewrite Hc, IH by exact Hs. reflexivity.
Qed.

Lemma lower_keep_fixed (s : string) :
  Str.forallb keep_char s = true -> Str.lower s = s.
Proof.
  unfold Str.lower.
  induction s as [|c s IH]; simpl; [reflexivity|].
  intros [Hc Hs]%andb_prop. rewrite keep_char_lower, IH by assumption.
  reflexivity.
Qed.

Lemma filter_keep_all (s : string) :
  Str.forallb keep_char (Str.filter keep_char s) = true.
Proof.
  induction s as [|c s IH]; simpl; [reflexivity|].
  destruct (keep_char c) eqn:Hc; simpl; [rewrite Hc|]; exact IH.
Qed.

(** C9. Text normalization is idempotent: normalizing a normalized text
    gives it back. *)
Theorem preprocess_text_idempotent (s : string) :
  preprocess_text (preprocess_text s) = preprocess_text s.
Proof.
  unfold preprocess_text.
  set (t := Str.filter keep_char (Str.lower s)).
  assert (Ht : Str.forallb keep_char t = true) by apply filter_keep_all.
  rewrite (lower_keep_fixed t Ht). apply filter_keep_fixed, Ht.
Qed.

Example preprocess_text_sample :
  preprocess_text "Hello, World! 42" = "hello world 42".
Proof. reflexivity. Qed.

(** ** [get_section_title_from_text] *)

(** C10. On the empty text, the only falsy [str], title derivation returns
    the constant "Untitled Section", whatever the maximum length. *)
Theorem title_of_empty_text (max_length : nat) :
  get_section_title_from_text "" max_length = "Untitled Section".
Proof. reflexivity. Qed.

Example title_short :
  get_section_title_from_text
    ("  Climate risk." +:+ Str.NL +:+ "more") default_max_length
  = "Climate risk.".
Proof. reflexivity. Qed.

Example title_cut :
  get_section_title_from_text "alpha beta gamma" 12 = "alpha beta...".
Proof. reflexivity. Qed.

Example title_uncut :
  get_section_title_from_text "alphabetagamma" 5 = "alpha...".
Proof. reflexivity. Qed.

Example title_blank :
  get_section_title_from_text "   " default_max_length = "Relevant Content".
Proof. reflexivity. Qed.

(** C6, as stated, fails: on a first line longer than the default maximum
    whose last white space within the first 100 characters is a tab, the
    program cuts at the last space, not at the last white-space boundary. *)
Lemma title_cut_ignores_tab :
  get_section_title_from_text tabbed_line default_max_length = "ab..."
  /\ spec_title "Relevant Content" tabbed_line default_max_length = "ab cd..."
  /\ get_section_title_from_text tabbed_line default_max_length
     <> spec_title "Relevant Content" tabbed_line default_max_length.
Proof. vm_compute. repeat split; discriminate. Qed.

(** C6, amended. The title is: "Untitled Section" for the empty text;
    "Relevant Content" for a non-empty text whose trimmed first line is
    empty; the trimmed first line itself when it is non-empty and no longer
    than the maximum; otherwise the first [max_length] characters of that
    line, cut just before their last space character when they contain one
    and left whole when they contain none, followed by "...". *)
Theorem title_derivation (text : string) (max_length : nat) :
  let first_line := first_line_of text in
  let title := get_section_title_from_text text max_length in
  (text = "" -> title = "Untitled Section")
  /\ (text <> "" -> first_line = "" -> title = "Relevant Content")
  /\ (first_line <> "" -> Str.len first_line <= max_length ->
      title = first_line)
  /\ (max_length < Str.len first_line ->
      let prefix := Str.take max_length first_line in
      (exists before after,
          prefix = before +:+ String Char.space after
          /\ lacks Char.space after = true
          /\ title = before +:+ "...")
      \/ (lacks Char.space prefix = true /\ title = prefix +:+ "...")).
Proof.
  intros first_line title. subst title. unfold get_section_title_from_text.
  fold first_line. split; [|split; [|split]].
  - intros ->. reflexivity.
  - intros Htext Hfl. apply is_empty_false in Htext. rewrite Htext, Hfl.
    reflexivity.
  - intros Hfl Hlen.
    destruct (Str.is_empty text) eqn:Ht.
    { apply is_empty_true in Ht. subst text. contradiction. }
    apply is_empty_false in Hfl. rewrite Hfl. simpl.
    destruct (Nat.ltb_spec max_length (Str.len first_line)); [lia|reflexivity].
  - intros Hlen. set (prefix := Str.take max_length first_line).
    destruct (Str.is_empty text) eqn:Ht.
    { apply is_empty_true in Ht. subst text. simpl in Hlen. lia. }
    assert (Hfl : Str.is_empty first_line = false).
    { destruct first_line; [simpl in Hlen; lia | reflexivity]. }
    rewrite Hfl. simpl.
    destruct (Nat.ltb_spec max_length (Str.len first_line)); [|lia].
    unfold Str.rsplit1.
    destruct (Str.rpartition Char.space prefix) as [[b a]|] eqn:E.
    + left. exists b, a. apply rpartition_some in E as [E1 E2]. auto.
    + right. split; [apply rpartition_none, E | reflexivity].
Qed.

(** ** [calculate_relevance_score] *)

Lemma size_list_to_set_le (l : list string) :
  size (list_to_set l : gset string) <= length l.
Proof.
  induction l as [|x l IH].
  - rewrite list_to_set_nil, size_empty. reflexivity.
  - rewrite list_to_set_cons, size_union_alt, size_singleton, length_cons.
    assert (size (list_to_set l ∖ {[x]} : gset string)
            <= size (list_to_set l : gset string)).
    { apply subseteq_size, subseteq_difference_l. reflexivity. }
    lia.
Qed.

Lemma filter_length_le {A} (f : A -> bool) (l : list A) :
  length (List.filter f l) <= length l.
Proof.
  induction l as [|x l IH]; simpl; [lia|]. destruct (f x); simpl; lia.
Qed.

Lemma pos_of_nat_Z (n : nat) : n <> 0 -> Z.pos (Pos.of_nat n) = Z.of_nat n.
Proof. intros Hn. lia. Qed.

(** The first guard: no keyword, no score. *)
Lemma score_without_keywords (word_tokenize : string -> list string)
  (text : string) :
  calculate_relevance_score word_tokenize text ∅ = 0%Q.
Proof.
  unfold calculate_relevance_score.
  rewrite bool_decide_eq_true_2 by reflexivity.
  rewrite orb_true_r. reflexivity.
Qed.

Section Scoring.

Variable word_tokenize : string -> list string.

(** The tokens of a text as the scorer sees them. *)
Let tokens (text : string) : list string :=
  word_tokenize (preprocess_text text).

Let matched (keywords : gset string) (words : list string) : gset string :=
  list_to_set
    (List.filter (fun word => bool_decide (word ∈ keywords)) words).

(** The tokenizer gives no token for the empty string. *)
Hypothesis word_tokenize_empty : word_tokenize "" = [].

Lemma tokens_nonempty_text (text : string) : tokens text <> [] -> text <> "".
Proof. intros Ht ->. apply Ht. exact word_tokenize_empty. Qed.

(** The quotient computed past the two guards. *)
Lemma score_quotient (text : string) (keywords : gset string) :
  tokens text <> [] -> keywords <> ∅ ->
  calculate_relevance_score word_tokenize text keywords
  = (Z.of_nat (size (matched keywords (tokens text)))
       # Pos.of_nat (length (tokens text)))%Q.
Proof.
  intros Ht Hk. unfold calculate_relevance_score.
  pose proof (proj2 (is_empty_false text) (tokens_nonempty_text text Ht))
    as He.
  rewrite He.
  rewrite (bool_decide_eq_false_2 _ Hk). simpl.
  fold (tokens text). rewrite (bool_decide_eq_false_2 _ Ht). reflexivity.
Qed.

Lemma matched_size_le (keywords : gset string) (words : list string) :
  size (matched keywords words) <= length words.
Proof.
  unfold matched. etransitivity; [apply size_list_to_set_le|].
  apply filter_length_le.
Qed.

Lemma matched_elem (keywords : gset string) (words : list string) w :
  w ∈ matched keywords words <-> w ∈ words /\ w ∈ keywords.
Proof.
  unfold matched. rewrite elem_of_list_to_set, list_elem_of_In, filter_In.
  rewrite bool_decide_eq_true, list_elem_of_In. reflexivity.
Qed.

(** C3. With an empty keyword set, or a text that normalizes to no
    token, the score is exactly 0. *)
Theorem score_zero (text : string) (keywords : gset string) :
  keywords = ∅ \/ word_tokenize (preprocess_text text) = [] ->
  calculate_relevance_score word_tokenize text keywords = 0%Q.
Proof.
  intros [-> | Ht]; [apply score_without_keywords|].
  unfold calculate_relevance_score. rewrite Ht.
  destruct (_ || _); [reflexivity|].
  rewrite bool_decide_eq_true_2 by reflexivity. reflexivity.
Qed.

(** C2. When the normalized token sequence of a text is non-empty and
    one of the keywords occurs among its tokens, the score is strictly
    positive and at most 1. *)
Theorem score_positive_at_most_one (text : string) (keywords : gset string) :
  word_tokenize (preprocess_text text) <> [] ->
  (exists w, w ∈ keywords /\ w ∈ word_tokenize (preprocess_text text)) ->
  (0 < calculate_relevance_score word_tokenize text keywords
   /\ calculate_relevance_score word_tokenize text keywords <= 1)%Q.
Proof.
  intros Ht (w & Hwk & Hwt).
  assert (Hk : keywords <> ∅) by set_solver.
  rewrite (score_quotient text keywords Ht Hk).
  assert (Hlen : length (tokens text) <> 0).
  { destruct (tokens text) eqn:E; [contradiction | simpl; lia]. }
  assert (Hpos : 0 < size (matched keywords (tokens text))).
  { assert (Hin : w ∈ matched keywords (tokens text))
      by (apply matched_elem; auto).
    destruct (size (matched keywords (tokens text))) eqn:E; [|lia].
    apply size_empty_inv in E. set_solver. }
  pose proof (matched_size_le keywords (tokens text)) as Hle.
  unfold Qlt, Qle. simpl. rewrite (pos_of_nat_Z _ Hlen). lia.
Qed.

(** C4. Repeating inside a text a token that is already there and that
    matches a keyword, so that no new keyword is matched, does not raise
    the score: the token sequence gains one copy of the token, the set of
    matched keywords stays the same. *)
Theorem score_duplicate_token (text text' : string) (keywords : gset string)
  (before after : list string) (w : string) :
  word_tokenize (preprocess_text text) = before ++ after ->
  word_tokenize (preprocess_text text') = before ++ w :: after ->
  w ∈ before ++ after ->
  w ∈ keywords ->
  (calculate_relevance_score word_tokenize text' keywords
   <= calculate_relevance_score word_tokenize text keywords)%Q.
Proof.
  intros Ht Ht' Hw Hk.
  assert (Hne : tokens text <> []).
  { unfold tokens. rewrite Ht. intros E. rewrite E in Hw. inversion Hw. }
  assert (Hne' : tokens text' <> []).
  { unfold tokens. rewrite Ht'. destruct before; discriminate. }
  assert (Hks : keywords <> ∅).
  { intros E. rewrite E in Hk. exact (not_elem_of_empty _ Hk). }
  rewrite (score_quotient text keywords Hne Hks).
  rewrite (score_quotient text' keywords Hne' Hks).
  assert (Hsame : matched keywords (tokens text')
                  = matched keywords (tokens text)).
  { apply set_eq. intros x. rewrite !matched_elem. unfold tokens.
    rewrite Ht, Ht'. rewrite !elem_of_app, elem_of_cons.
    apply elem_of_app in Hw. intuition (subst; auto). }
  rewrite Hsame.
  assert (Hlen : length (tokens text') = S (length (tokens text))).
  { unfold tokens. rewrite Ht, Ht', !length_app. simpl. lia. }
  assert (Hl : length (tokens text) <> 0).
  { destruct (tokens text); [contradiction | simpl; lia]. }
  unfold Qle. simpl. rewrite Hlen, !pos_of_nat_Z by lia. nia.
Qed.

End Scoring.

(** ** White space, [strip] and [split] *)

Lemma has_content_cons (c : ascii) (s : string) :
  has_content (String c s) = negb (Char.isspace c) || has_content s.
Proof. reflexivity. Qed.

Lemma lstrip_has_content (s : string) :
  has_content (Str.lstrip s) = has_content s.
Proof.
  unfold has_content.
  induction s as [|c s IH]; simpl; [reflexivity|].
  destruct (Char.isspace c) eqn:Hc; simpl; [exact IH | rewrite Hc; reflexivity].
Qed.

Lemma lstrip_empty (s : string) :
  Str.lstrip s = "" <-> has_content s = false.
Proof.
  unfold has_content.
  induction s as [|c s IH]; simpl; [tauto|].
  destruct (Char.isspace c); simpl; [exact IH|]. split; discriminate.
Qed.

Lemma rstrip_empty (s : string) :
  Str.rstrip s = "" <-> has_content s = false.
Proof.
  unfold has_content.
  induction s as [|c s IH]; simpl; [tauto|].
  destruct (Str.rstrip s) as [|x r] eqn:E.
  - destruct (Char.isspace c); simpl.
    + split; [intros _; apply IH; reflexivity | reflexivity].
    + split; discriminate.
  - split; [discriminate|]. intros [_ H]%orb_false_elim.
    apply IH in H. discriminate.
Qed.

Lemma strip_empty (s : string) : Str.strip s = "" <-> has_content s = false.
Proof.
  unfold Str.strip. rewrite rstrip_empty, lstrip_has_content. reflexivity.
Qed.

Lemma strip_nonempty (s : string) :
  Str.is_empty (Str.strip s) = false <-> has_content s = true.
Proof.
  rewrite is_empty_false, strip_empty. destruct (has_content s); split;
    congruence.
Qed.

Lemma lstrip_head (s : string) :
  has_content s = true ->
  exists c r, Str.lstrip s = String c r /\ Char.isspace c = false.
Proof.
  induction s as [|c s IH]; [discriminate|].
  rewrite has_content_cons. simpl.
  destruct (Char.isspace c) eqn:Hc; simpl; [exact IH|]. eauto.
Qed.

Lemma rstrip_head (c : ascii) (r : string) :
  Char.isspace c = false -> exists r', Str.rstrip (String c r) = String c r'.
Proof.
  intros Hc. simpl. rewrite Hc. destruct (Str.rstrip r); eauto.
Qed.

(** The trimmed first line is empty exactly for a text of white space. *)
Lemma first_line_empty_iff (text : string) :
  first_line_of text = "" <-> has_content text = false.
Proof.
  unfold first_line_of. split.
  - intros Hfl. destruct (has_content text) eqn:Ht; [exfalso|reflexivity].
    destruct (lstrip_head text Ht) as (c & r & Hl & Hc).
    destruct (rstrip_head c r Hc) as (r' & Hr).
    unfold Str.strip at 2 in Hfl. rewrite Hl, Hr in Hfl.
    assert (Hnl : Ascii.eqb Char.newline c = false).
    { destruct (Ascii.eqb Char.newline c) eqn:E; [|reflexivity].
      apply Ascii.eqb_eq in E. subst c. discriminate. }
    unfold Str.split, Str.NL in Hfl. cbn [Str.split_from Str.startswith] in Hfl.
    rewrite Hnl in Hfl.
    assert (Hhead : forall p, Str.strip (String c p) <> "").
    { intros p. rewrite strip_empty, has_content_cons, Hc. discriminate. }
    destruct (Str.split_from (String Char.newline "") 0 r');
      exact (Hhead _ Hfl).
  - intros Ht. apply strip_empty in Ht. rewrite Ht. reflexivity.
Qed.

Lemma has_content_drop (n : nat) (s : string) :
  Str.forallb Char.isspace (Str.take n s) = true ->
  has_content (Str.drop n s) = has_content s.
Proof.
  unfold has_content. revert s.
  induction n as [|n IH]; intros [|c s]; simpl; try reflexivity.
  intros [Hc Hs]%andb_prop. rewrite Hc. simpl. apply IH, Hs.
Qed.

Lemma startswith_take (s p : string) :
  Str.startswith s p = true -> Str.take (Str.len p) s = p.
Proof.
  revert s. induction p as [|a p IH]; intros [|b s]; simpl;
    try reflexivity; try discriminate.
  destruct (Ascii.eqb a b) eqn:E; [|discriminate].
  apply Ascii.eqb_eq in E as ->. intros H. rewrite (IH s H). reflexivity.
Qed.

(** Splitting at a separator made of white space loses no content. *)
Lemma split_from_has_content (a : ascii) (sep' : string) :
  Str.forallb Char.isspace (String a sep') = true ->
  forall (s : string) (skip : nat),
    Str.forallb Char.isspace (Str.take skip s) = true ->
    List.existsb has_content (Str.split_from (String a sep') skip s)
    = has_content (Str.drop skip s).
Proof.
  intros Hsep. induction s as [|c s IH]; intros skip Hskip.
  - destruct skip; reflexivity.
  - destruct skip as [|k].
    + cbn [Str.split_from Str.drop].
      destruct (Str.startswith (String c s) (String a sep')) eqn:Hst.
      * change (Str.len (String a sep') - 1) with (Str.len sep' - 0).
        rewrite Nat.sub_0_r.
        simpl in Hst. destruct (Ascii.eqb a c) eqn:E; [|discriminate].
        apply Ascii.eqb_eq in E as <-.
        apply startswith_take in Hst.
        simpl in Hsep. apply andb_prop in Hsep as [Ha Hsep'].
        cbn [List.existsb]. rewrite IH by (rewrite Hst; exact Hsep').
        rewrite has_content_drop by (rewrite Hst; exact Hsep').
        rewrite has_content_cons, Ha. reflexivity.
      * specialize (IH 0 eq_refl). cbn [Str.drop] in IH.
        rewrite has_content_cons, <- IH.
        destruct (Str.split_from (String a sep') 0 s) as [|p ps];
          cbn [List.existsb]; rewrite has_content_cons.
        -- rewrite orb_false_r. reflexivity.
        -- rewrite orb_assoc. reflexivity.
    + cbn [Str.split_from Str.drop]. simpl in Hskip.
      apply andb_prop in Hskip as [_ Hskip]. apply IH, Hskip.
Qed.

Lemma split_blank_lines_has_content (text : string) :
  List.existsb has_content (Str.split text Str.NLNL) = has_content text.
Proof.
  unfold Str.split, Str.NLNL, Str.NL.
  rewrite (split_from_has_content Char.newline (String Char.newline ""))
    by reflexivity.
  destruct text; reflexivity.
Qed.

(** ** Segmentation *)

Lemma filter_existsb {A} (f : A -> bool) (l : list A) :
  List.existsb f l = true ->
  exists x l', List.filter f l = x :: l' /\ f x = true.
Proof.
  induction l as [|y l IH]; simpl; [discriminate|].
  destruct (f y) eqn:Hy; simpl; [eauto | exact IH].
Qed.

Lemma filter_not_existsb {A} (f : A -> bool) (l : list A) :
  List.existsb f l = false -> List.filter f l = [].
Proof.
  induction l as [|y l IH]; simpl; [reflexivity|].
  destruct (f y); simpl; [discriminate | exact IH].
Qed.

Lemma nonempty_strip_has_content (p : string) :
  negb (Str.is_empty (Str.strip p)) = has_content p.
Proof.
  destruct (has_content p) eqn:Hp.
  - apply strip_nonempty in Hp. rewrite Hp. reflexivity.
  - apply strip_empty in Hp. rewrite Hp. reflexivity.
Qed.

Lemma page_paragraphs_filter (text : string) :
  List.filter (fun p => negb (Str.is_empty (Str.strip p)))
    (Str.split text Str.NLNL)
  = List.filter has_content (Str.split text Str.NLNL).
Proof. apply filter_ext. intros p. apply nonempty_strip_has_content. Qed.

(** With content on the page, blank-line splitting gives a first paragraph
    that is not empty. *)
Lemma page_paragraphs_content (text : string) :
  has_content text = true ->
  exists q qs, page_paragraphs text = q :: qs /\ q <> "".
Proof.
  intros Ht. unfold page_paragraphs. rewrite page_paragraphs_filter.
  rewrite <- split_blank_lines_has_content in Ht.
  destruct (filter_existsb _ _ Ht) as (p & l' & -> & Hp).
  cbn [List.map]. rewrite bool_decide_eq_false_2 by discriminate.
  exists (Str.strip p), (List.map Str.strip l'). split; [reflexivity|].
  rewrite strip_empty, Hp. discriminate.
Qed.

(** Without content, no paragraph survives and the fallback paragraph, the
    trimmed page, is the empty string. *)
Lemma page_paragraphs_blank (text : string) :
  has_content text = false -> page_paragraphs text = [""].
Proof.
  intros Ht. unfold page_paragraphs. rewrite page_paragraphs_filter.
  rewrite filter_not_existsb
    by (rewrite split_blank_lines_has_content; exact Ht).
  cbn [List.map]. rewrite bool_decide_eq_true_2 by reflexivity.
  apply strip_empty in Ht. rewrite Ht. reflexivity.
Qed.

(** C5, as stated, fails: a page whose raw text is the non-empty string
    " " yields no content unit; the text extractor keeps such a page, the
    segmenter drops it. *)
Lemma blank_page_dropped :
  pd_text blank_page <> ""
  /\ collect_pages 0 [Some " "] = [blank_page]
  /\ page_units "doc.pdf" blank_page = [].
Proof. repeat split. discriminate. Qed.

(** C5, amended. A page yields at least one content unit exactly when its
    raw text has a character that is not white space; the paragraphs then
    come from blank-line splitting.  When splitting leaves no paragraph the
    page is all white space, the fallback paragraph is the empty trimmed
    text, and no unit is produced from it. *)
Theorem page_units_nonempty_iff (doc_name : string) (page_data : PageData) :
  (page_units doc_name page_data <> [] <->
     has_content (pd_text page_data) = true)
  /\ (List.filter (fun p => negb (Str.is_empty (Str.strip p)))
        (Str.split (pd_text page_data) Str.NLNL) = [] ->
      page_paragraphs (pd_text page_data) = [""]
      /\ page_units doc_name page_data = []).
Proof.
  assert (Hblank : has_content (pd_text page_data) = false ->
                   page_paragraphs (pd_text page_data) = [""]
                   /\ page_units doc_name page_data = []).
  { intros Ht. pose proof (page_paragraphs_blank _ Ht) as Hp.
    split; [exact Hp|]. unfold page_units. rewrite Hp. reflexivity. }
  split; [split|].
  - intros Hne. destruct (has_content (pd_text page_data)) eqn:Ht;
      [reflexivity|]. destruct (Hblank eq_refl) as [_ Hu]. contradiction.
  - intros Ht. destruct (page_paragraphs_content _ Ht) as (q & qs & Hp & Hq).
    unfold page_units. rewrite Hp, imap_cons.
    apply is_empty_false in Hq. rewrite Hq. discriminate.
  - intros Hf. apply Hblank. rewrite page_paragraphs_filter in Hf.
    rewrite <- split_blank_lines_has_content.
    destruct (List.existsb has_content (Str.split (pd_text page_data) Str.NLNL))
      eqn:E; [|reflexivity].
    destruct (filter_existsb _ _ E) as (x & l' & Hx & _). congruence.
Qed.

Example page_units_sample :
  page_units "doc.pdf"
    {| pd_page_number := 3;
       pd_text := "  First." +:+ Str.NLNL +:+ " " +:+ Str.NLNL +:+ "Second " |}
  = [ {| document := "doc.pdf"; page_number := 3;
         text_content := "First."; paragraph_index := 0 |};
      {| document := "doc.pdf"; page_number := 3;
         text_content := "Second"; paragraph_index := 1 |} ].
Proof. reflexivity. Qed.

(** ** Segmentation order of the extracted content *)

Lemma collect_pages_sorted (texts : list (option string)) (i : nat) :
  StronglySorted (fun p q => pd_page_number p < pd_page_number q)
    (collect_pages i texts)
  /\ Forall (fun p => i < pd_page_number p) (collect_pages i texts).
Proof.
  revert i. induction texts as [|t texts IH]; intros i; simpl.
  - split; constructor.
  - destruct (IH (S i)) as [Hs Hf].
    assert (Hweak : Forall (fun p => i < pd_page_number p)
                      (collect_pages (S i) texts)).
    { eapply Forall_impl; [exact Hf|]. simpl. intros. lia. }
    destruct t as [[|c t]|]; try (split; assumption).
    split.
    + constructor; [exact Hs|].
      eapply Forall_impl; [exact Hf|]. simpl. intros. lia.
    + constructor; [simpl; lia | exact Hweak].
Qed.

Section PageUnits.

Variable doc_name : string.
Variable page : nat.

(** The unit of the paragraph at index [k + i]. *)
Let unit_at (k i : nat) (p : string) : list ContentUnit :=
  if Str.is_empty p then []
  else [ {| document := doc_name; page_number := page;
            text_content := p; paragraph_index := k + i |} ].

Lemma units_from_sorted (l : list string) (k : nat) :
  StronglySorted segmented_before (concat (imap (unit_at k) l))
  /\ Forall (fun u => page_number u = page /\ k <= paragraph_index u)
       (concat (imap (unit_at k) l)).
Proof.
  revert k. induction l as [|p l IH]; intros k.
  - split; constructor.
  - rewrite imap_cons.
    rewrite (imap_ext (unit_at k ∘ S) (unit_at (S k)))
      by (intros i x _; unfold unit_at; simpl;
          replace (k + S i) with (S (k + i)) by lia; reflexivity).
    destruct (IH (S k)) as [Hs Hf]. cbn [concat].
    unfold unit_at at 1 3. destruct (Str.is_empty p); simpl.
    + split; [exact Hs|].
      eapply Forall_impl; [exact Hf|]. simpl. intros u [? ?]. split;
        [assumption | lia].
    + split.
      * constructor; [exact Hs|].
        eapply Forall_impl; [exact Hf|]. simpl. intros u [Hp Hi].
        right. simpl. split; [congruence | lia].
      * constructor; [simpl; split; [reflexivity | lia]|].
        eapply Forall_impl; [exact Hf|]. simpl. intros u [? ?]. split;
          [assumption | lia].
Qed.

End PageUnits.

Lemma page_units_sorted (doc_name : string) (page_data : PageData) :
  StronglySorted segmented_before (page_units doc_name page_data)
  /\ Forall (fun u => page_number u = pd_page_number page_data)
       (page_units doc_name page_data).
Proof.
  destruct (units_from_sorted doc_name (pd_page_number page_data)
              (page_paragraphs (pd_text page_data)) 0) as [Hs Hf].
  split; [exact Hs|].
  eapply Forall_impl; [exact Hf|]. simpl. intros u [? _]. assumption.
Qed.

(** Units come out in page order, then paragraph order within the page. *)
Lemma all_extracted_content_sorted (doc_name : string)
  (pages_data : list PageData) :
  StronglySorted (fun p q => pd_page_number p < pd_page_number q) pages_data ->
  StronglySorted segmented_before (all_extracted_content doc_name pages_data).
Proof.
  unfold all_extracted_content.
  induction pages_data as [|p pages IH]; intros Hs; simpl; [constructor|].
  apply StronglySorted_cons in Hs as [Hp Hs].
  destruct (page_units_sorted doc_name p) as [Hps Hpf].
  apply StronglySorted_app_2; [|exact Hps | apply IH, Hs].
  intros u v Hu Hv. left.
  rewrite Forall_forall in Hpf. rewrite (Hpf u Hu).
  apply list_elem_of_In, in_concat in Hv as (us & Hus & Hv).
  apply in_map_iff in Hus as (q & <- & Hq).
  apply list_elem_of_In in Hv, Hq.
  rewrite Forall_forall in Hp. specialize (Hp q Hq).
  destruct (page_units_sorted doc_name q) as [_ Hqf].
  rewrite Forall_forall in Hqf. rewrite (Hqf v Hv). exact Hp.
Qed.

(** ** The sort *)

Lemma ranked_before_le (a b : ScoredUnit) :
  ranked_before a b -> (score b <= score a)%Q.
Proof.
  intros [H | [H _]]; [apply Qlt_le_weak, H | rewrite H; apply Qle_refl].
Qed.

Lemma insert_by_score_Forall (P : ScoredUnit -> Prop) x l :
  Forall P (insert_by_score x l) <-> P x /\ Forall P l.
Proof.
  induction l as [|y l IH]; simpl.
  - rewrite !Forall_cons. tauto.
  - destruct (Qle_bool (score y) (score x)).
    + rewrite !Forall_cons. tauto.
    + rewrite !Forall_cons, IH. tauto.
Qed.

Lemma sort_by_score_desc_Forall (P : ScoredUnit -> Prop) l :
  Forall P (sort_by_score_desc l) <-> Forall P l.
Proof.
  unfold sort_by_score_desc. induction l as [|x l IH]; simpl; [tauto|].
  rewrite insert_by_score_Forall, Forall_cons, IH. tauto.
Qed.

Lemma insert_by_score_Permutation x l : insert_by_score x l ≡ₚ x :: l.
Proof.
  induction l as [|y l IH]; simpl; [reflexivity|].
  destruct (Qle_bool (score y) (score x)); [reflexivity|].
  rewrite IH. apply perm_swap.
Qed.

(** The sort rearranges its input. *)
Lemma sort_by_score_desc_Permutation l : sort_by_score_desc l ≡ₚ l.
Proof.
  unfold sort_by_score_desc. induction l as [|x l IH]; simpl; [reflexivity|].
  rewrite insert_by_score_Permutation, IH. reflexivity.
Qed.

(** Inserting a unit that precedes, in segmentation order, every unit of a
    ranked list keeps the list ranked. *)
Lemma insert_by_score_ranked x l :
  StronglySorted ranked_before l ->
  Forall (fun b => segmented_before (item x) (item b)) l ->
  StronglySorted ranked_before (insert_by_score x l).
Proof.
  induction l as [|y l IH]; intros Hs Hx; simpl.
  - repeat constructor.
  - apply StronglySorted_cons in Hs as [Hy Hs].
    apply Forall_cons in Hx as [Hxy Hx].
    destruct (Qle_bool (score y) (score x)) eqn:E.
    + apply Qle_bool_iff in E.
      constructor; [constructor; assumption|].
      assert (Hle : forall b, (score b <= score y)%Q ->
                      segmented_before (item x) (item b) ->
                      ranked_before x b).
      { intros b Hb Hseg.
        destruct (Qle_lt_or_eq _ _ (Qle_trans _ _ _ Hb E)) as [Hlt | Heq].
        - left. exact Hlt.
        - right. split; [symmetry; exact Heq | exact Hseg]. }
      constructor; [apply Hle; [apply Qle_refl | exact Hxy]|].
      rewrite Forall_forall in Hy, Hx. apply Forall_forall. intros b Hb.
      apply Hle; [apply ranked_before_le, Hy, Hb | apply Hx, Hb].
    + assert (Hlt : (score x < score y)%Q).
      { apply Qnot_le_lt. intros H. apply Qle_bool_iff in H. congruence. }
      constructor; [apply IH; assumption|].
      apply insert_by_score_Forall. split; [left; exact Hlt | exact Hy].
Qed.

(** The sort is stable: a list in segmentation order comes out ranked. *)
Lemma sort_by_score_desc_ranked l :
  StronglySorted (fun a b => segmented_before (item a) (item b)) l ->
  StronglySorted ranked_before (sort_by_score_desc l).
Proof.
  unfold sort_by_score_desc. induction l as [|x l IH]; intros Hs; simpl.
  - constructor.
  - apply StronglySorted_cons in Hs as [Hx Hs].
    apply insert_by_score_ranked; [apply IH, Hs|].
    apply (sort_by_score_desc_Forall _ l), Hx.
Qed.

Lemma StronglySorted_take {A} (R : relation A) (n : nat) (l : list A) :
  StronglySorted R l -> StronglySorted R (take n l).
Proof.
  intros Hs. rewrite <- (take_drop n l) in Hs.
  apply StronglySorted_app_1_l in Hs. exact Hs.
Qed.

Lemma StronglySorted_lookup {A} (R : relation A) (l : list A) i j a b :
  StronglySorted R l -> i < j -> l !! i = Some a -> l !! j = Some b -> R a b.
Proof.
  intros Hs. revert i j. induction Hs as [|x l Hs IH Hx]; intros i j Hij Hi Hj.
  - rewrite lookup_nil in Hi. discriminate.
  - destruct j as [|j]; [lia|]. destruct i as [|i]; simpl in *.
    + injection Hi as <-. rewrite Forall_forall in Hx.
      apply Hx. eapply list_elem_of_lookup_2, Hj.
    + apply (IH i j); [lia | assumption..].
Qed.

Lemma StronglySorted_weaken {A} (R R' : relation A) (l : list A) :
  (forall a b, R a b -> R' a b) -> StronglySorted R l -> StronglySorted R' l.
Proof.
  intros Hw. induction 1 as [|x l Hs IH Hx]; constructor; [exact IH|].
  eapply Forall_impl; [exact Hx | apply Hw].
Qed.

(** ** Ranks *)

Lemma output_sections_ranks_from (selected : list ScoredUnit) (k : nat) :
  importance_rank <$>
    imap (fun i it =>
            {| rs_document := document (item it);
               rs_page_number := page_number (item it);
               section_title :=
                 get_section_title_from_text (text_content (item it))
                   default_max_length;
               importance_rank := k + i + 1 |}) selected
  = seq (k + 1) (length selected).
Proof.
  revert k. induction selected as [|x l IH]; intros k; [reflexivity|].
  rewrite imap_cons. cbn [fmap list_fmap length seq importance_rank].
  f_equal; [lia|].
  replace (S (k + 1)) with (S k + 1) by lia. rewrite <- IH.
  f_equal. apply imap_ext. intros i y _. simpl. f_equal. lia.
Qed.

Lemma output_sections_ranks (selected : list ScoredUnit) :
  importance_rank <$> output_sections selected = seq 1 (length selected).
Proof. apply (output_sections_ranks_from selected 0). Qed.

(** ** The document run *)

Lemma extract_text_from_pdf_sorted env pdf_path w :
  StronglySorted (fun p q => pd_page_number p < pd_page_number q)
    (fst (extract_text_from_pdf env pdf_path w)).
Proof.
  unfold extract_text_from_pdf.
  destruct (pdfplumber_open env pdf_path); simpl.
  - constructor.
  - apply collect_pages_sorted.
Qed.

Section Run.

Variable word_tokenize : string -> list string.
Variable stopwords_english : list string.

Let score_of (keywords : gset string) (u : ContentUnit) : Q :=
  calculate_relevance_score word_tokenize (text_content u) keywords.

Lemma scored_content_Forall (keywords : gset string) units :
  Forall (fun a => item a ∈ units
                   /\ score a = score_of keywords (item a)
                   /\ (0 < score a)%Q)
    (scored_content word_tokenize keywords units).
Proof.
  induction units as [|u units IH]; simpl; [constructor|].
  assert (IH' : Forall (fun a => item a ∈ u :: units
                          /\ score a = score_of keywords (item a)
                          /\ (0 < score a)%Q)
                  (scored_content word_tokenize keywords units)).
  { eapply Forall_impl; [exact IH|]. simpl. intros a (? & ? & ?).
    repeat split; [right|..]; assumption. }
  destruct (Qle_bool _ 0) eqn:E; simpl; [exact IH'|].
  constructor; [|exact IH']. simpl. repeat split; [left|].
  apply Qnot_le_lt. intros H. apply Qle_bool_iff in H. congruence.
Qed.

Lemma scored_content_sorted (keywords : gset string) units :
  StronglySorted segmented_before units ->
  StronglySorted (fun a b => segmented_before (item a) (item b))
    (scored_content word_tokenize keywords units).
Proof.
  induction 1 as [|u units Hs IH Hu]; simpl; [constructor|].
  destruct (negb _); [|exact IH].
  constructor; [exact IH|]. simpl.
  rewrite Forall_forall in Hu. apply Forall_forall. intros a Ha.
  apply Hu.
  pose proof (scored_content_Forall keywords units) as Hf.
  rewrite Forall_forall in Hf. apply (Hf a Ha).
Qed.

Lemma selected_units_ranked (keywords : gset string) units :
  StronglySorted segmented_before units ->
  StronglySorted ranked_before (selected_units word_tokenize keywords units).
Proof.
  intros Hs. unfold selected_units.
  apply StronglySorted_take, sort_by_score_desc_ranked.
  apply scored_content_sorted, Hs.
Qed.

Lemma selected_units_Forall (keywords : gset string) units :
  Forall (fun a => item a ∈ units
                   /\ score a = score_of keywords (item a)
                   /\ (0 < score a)%Q)
    (selected_units word_tokenize keywords units).
Proof.
  unfold selected_units.
  apply Forall_take, sort_by_score_desc_Forall, scored_content_Forall.
Qed.

Lemma analyst_result env document_path persona_description job_to_be_done w :
  let selected :=
    selected_units word_tokenize
      (combined_keywords word_tokenize stopwords_english
         persona_description job_to_be_done)
      (all_extracted_content (basename document_path)
         (fst (extract_text_from_pdf env document_path w))) in
  let result :=
    fst (intelligent_document_analyst word_tokenize stopwords_english env
           document_path persona_description job_to_be_done w) in
  extracted_sections result = output_sections selected
  /\ sub_section_analysis result = output_sub_sections selected.
Proof.
  unfold intelligent_document_analyst, extract_text_from_pdf, bind.
  destruct (pdfplumber_open env document_path); split; reflexivity.
Qed.

(** C1. In every document run the selected units, of which the ranked
    sections and the excerpts are the images, are units of the document
    carrying their relevance score; they are ordered by descending score;
    two of them with equal scores stand in segmentation order (page, then
    paragraph within the page); there are at most ten; and the ranks of
    the N ranked sections are 1, 2, ..., N in this order. *)
Theorem selected_sections_ranked env document_path persona_description
  job_to_be_done w :
  let units :=
    all_extracted_content (basename document_path)
      (fst (extract_text_from_pdf env document_path w)) in
  let keywords :=
    combined_keywords word_tokenize stopwords_english
      persona_description job_to_be_done in
  let selected := selected_units word_tokenize keywords units in
  let result :=
    fst (intelligent_document_analyst word_tokenize stopwords_english env
           document_path persona_description job_to_be_done w) in
  extracted_sections result = output_sections selected
  /\ sub_section_analysis result = output_sub_sections selected
  /\ Forall (fun a =>
               item a ∈ units
               /\ score a
                  = calculate_relevance_score word_tokenize
                      (text_content (item a)) keywords) selected
  /\ StronglySorted (fun a b => (score b <= score a)%Q) selected
  /\ (forall i j a b,
         i < j -> selected !! i = Some a -> selected !! j = Some b ->
         (score a == score b)%Q ->
         segmented_before (item a) (item b))
  /\ length selected <= max_sections_to_output
  /\ importance_rank <$> extracted_sections result
     = seq 1 (length selected).
Proof.
  intros units keywords selected result.
  destruct (analyst_result env document_path persona_description
              job_to_be_done w) as [Hsec Hsub].
  fold units keywords selected result in Hsec, Hsub.
  assert (Hranked : StronglySorted ranked_before selected).
  { apply selected_units_ranked, all_extracted_content_sorted,
      extract_text_from_pdf_sorted. }
  split; [exact Hsec|]. split; [exact Hsub|]. split; [|split; [|split]].
  - eapply Forall_impl; [apply selected_units_Forall|].
    simpl. intros a (? & ? & _). split; assumption.
  - eapply StronglySorted_weaken; [apply ranked_before_le | exact Hranked].
  - intros i j a b Hij Hi Hj Heq.
    destruct (StronglySorted_lookup _ _ _ _ _ _ Hranked Hij Hi Hj)
      as [Hlt | [_ Hseg]]; [|exact Hseg].
    rewrite Heq in Hlt. exfalso. exact (Qlt_irrefl _ Hlt).
  - split.
    + unfold selected, selected_units. rewrite length_take. lia.
    + rewrite Hsec. apply output_sections_ranks.
Qed.

(** C8. When persona and job give no keyword, every text scores 0, and
    the run returns a result whose ranked sections and excerpts are both
    empty. *)
Theorem empty_keywords_empty_result env document_path persona_description
  job_to_be_done w :
  combined_keywords word_tokenize stopwords_english
    persona_description job_to_be_done = ∅ ->
  let units :=
    all_extracted_content (basename document_path)
      (fst (extract_text_from_pdf env document_path w)) in
  let result :=
    fst (intelligent_document_analyst word_tokenize stopwords_english env
           document_path persona_description job_to_be_done w) in
  Forall (fun u =>
            calculate_relevance_score word_tokenize (text_content u)
              (combined_keywords word_tokenize stopwords_english
                 persona_description job_to_be_done) = 0%Q) units
  /\ extracted_sections result = []
  /\ sub_section_analysis result = [].
Proof.
  intros Hk units result.
  destruct (analyst_result env document_path persona_description
              job_to_be_done w) as [Hsec Hsub].
  fold units result in Hsec, Hsub. rewrite Hk in *.
  assert (Hzero : forall text,
             calculate_relevance_score word_tokenize text ∅ = 0%Q).
  { intros text. apply score_without_keywords. }
  assert (Hnone : forall l, scored_content word_tokenize ∅ l = []).
  { induction l as [|u us IH]; simpl; [reflexivity|].
    rewrite Hzero. simpl. exact IH. }
  split; [apply Forall_forall; intros u _; apply Hzero|].
  rewrite Hsec, Hsub. unfold selected_units. rewrite Hnone.
  split; reflexivity.
Qed.

End Run.

(** ** Documents that cannot be read *)

Lemma for_each_cons {A} (body : A -> IO unit) (x : A) (l : list A) w :
  for_each body (x :: l) w = for_each body l (snd (body x w)).
Proof. simpl. unfold bind. destruct (body x w). reflexivity. Qed.

(** C7, as stated, fails: for the single unreadable file "bad.pdf" the
    program runs the ranking pipeline on an empty page list, writes the
    resulting record to "bad.json" and reports success. *)
Lemma unreadable_document_persisted :
  let w := snd (main sample_tokenize sample_stopwords unreadable_env
                  initial_world) in
  pdfplumber_open unreadable_env "/app/input/bad.pdf" = Unreadable
  /\ files w !! "/app/output/bad.json"
     = Some {| metadata :=
                 {| input_document := "bad.pdf";
                    persona := "Default persona: a general researcher";
                    job_to_be_done :=
                      "Default job: find the most relevant sections";
                    processing_timestamp := 0 |};
               extracted_sections := [];
               sub_section_analysis := [] |}
  /\ stdout w
     = [MsgStarted;
        MsgUsingPersona "Default persona: a general researcher";
        MsgUsingJob "Default job: find the most relevant sections";
        MsgProcessing "bad.pdf"; MsgGenerated "bad.json"; MsgFinished]
  /\ stderr w = [MsgExtractError "/app/input/bad.pdf"].
Proof. vm_compute. repeat split. Qed.

Section Batch.

Variable word_tokenize : string -> list string.
Variable stopwords_english : list string.

(** C7, amended. For a document that cannot be read, extraction reports
    the failure on the error stream and yields no page; the pipeline
    still runs, and, the output file being writable, a result with empty
    ranked sections and excerpts is written under the document's output
    name and success is reported; the loop then goes on with the
    remaining files. *)
Theorem unreadable_document_empty_result env persona job filename rest w :
  pdfplumber_open env (path_join INPUT_DIR filename) = Unreadable ->
  can_write env
    (path_join OUTPUT_DIR (splitext_root filename +:+ ".json")) = true ->
  let input_path := path_join INPUT_DIR filename in
  let output_filename := splitext_root filename +:+ ".json" in
  let output_path := path_join OUTPUT_DIR output_filename in
  let body := process_file word_tokenize stopwords_english env persona job in
  let w' := snd (body filename w) in
  fst (extract_text_from_pdf env input_path w) = []
  /\ files w'
     = <[output_path :=
           {| metadata :=
                {| input_document := basename input_path;
                   persona := persona;
                   job_to_be_done := job;
                   processing_timestamp := clock w |};
              extracted_sections := [];
              sub_section_analysis := [] |}]> (files w)
  /\ stderr w' = stderr w ++ [MsgExtractError input_path]
  /\ stdout w'
     = stdout w ++ [MsgProcessing filename; MsgGenerated output_filename]
  /\ for_each body (filename :: rest) w = for_each body rest w'.
Proof.
  intros Hpdf Hwrite input_path output_filename output_path body w'.
  split; [|split; [|split; [|split]]].
  - unfold extract_text_from_pdf. fold input_path in Hpdf. rewrite Hpdf.
    reflexivity.
  - subst w' body. unfold process_file, intelligent_document_analyst,
      extract_text_from_pdf, write_json, bind.
    fold input_path output_filename output_path in Hpdf, Hwrite |- *.
    rewrite Hpdf. simpl. rewrite Hwrite. reflexivity.
  - subst w' body. unfold process_file, intelligent_document_analyst,
      extract_text_from_pdf, write_json, bind.
    fold input_path output_filename output_path in Hpdf, Hwrite |- *.
    rewrite Hpdf. simpl. rewrite Hwrite. reflexivity.
  - subst w' body. unfold process_file, intelligent_document_analyst,
      extract_text_from_pdf, write_json, bind.
    fold input_path output_filename output_path in Hpdf, Hwrite |- *.
    rewrite Hpdf. simpl. rewrite Hwrite. simpl.
    rewrite <- app_assoc. reflexivity.
  - apply for_each_cons.
Qed.

End Batch.

(** ** The theorems on concrete inputs *)

(** A text of punctuation normalizes to no token. *)
Lemma score_zero_witness :
  sample_tokenize (preprocess_text "?!") = []
  /\ calculate_relevance_score sample_tokenize "?!" {[ "climate" ]} = 0%Q.
Proof.
  split; [reflexivity|].
  apply (score_zero sample_tokenize "?!" {[ "climate" ]}).
  right. reflexivity.
Defined.

(** Two of four tokens are keywords. *)
Lemma score_positive_at_most_one_witness :
  (0 < calculate_relevance_score sample_tokenize
         "Assess climate risk today." {[ "climate"; "risk" ]}
   /\ calculate_relevance_score sample_tokenize
        "Assess climate risk today." {[ "climate"; "risk" ]} <= 1)%Q.
Proof.
  apply (score_positive_at_most_one sample_tokenize eq_refl
           "Assess climate risk today." {[ "climate"; "risk" ]}).
  - vm_compute. discriminate.
  - exists "risk". split.
    + apply elem_of_union_r, elem_of_singleton. reflexivity.
    + change (sample_tokenize (preprocess_text "Assess climate risk today."))
        with ["assess"; "climate"; "risk"; "today"].
      apply list_elem_of_In. simpl. tauto.
Defined.

(** One third against one quarter. *)
Lemma score_duplicate_token_witness :
  (calculate_relevance_score sample_tokenize "risk risk and climate"
     {[ "risk" ]}
   <= calculate_relevance_score sample_tokenize "risk and climate"
        {[ "risk" ]})%Q.
Proof.
  apply (score_duplicate_token sample_tokenize eq_refl
           "risk and climate" "risk risk and climate" {[ "risk" ]}
           ["risk"] ["and"; "climate"] "risk").
  - reflexivity.
  - reflexivity.
  - apply list_elem_of_In. simpl. tauto.
  - apply elem_of_singleton. reflexivity.
Defined.

(** Persona and job made of stop words. *)
Lemma empty_keywords_empty_result_witness :
  combined_keywords sample_tokenize sample_stopwords "the" "of a" = ∅
  /\ extracted_sections
       (fst (intelligent_document_analyst sample_tokenize sample_stopwords
               sample_env "/app/input/report.pdf" "the" "of a"
               initial_world)) = [].
Proof.
  split; [reflexivity|].
  exact (proj1 (proj2 (empty_keywords_empty_result sample_tokenize
                         sample_stopwords sample_env "/app/input/report.pdf"
                         "the" "of a" initial_world eq_refl))).
Defined.

(** The loop body on the unreadable "bad.pdf". *)
Lemma unreadable_document_empty_result_witness :
  stderr (snd (process_file sample_tokenize sample_stopwords unreadable_env
                 "persona" "job" "bad.pdf" initial_world))
  = [MsgExtractError "/app/input/bad.pdf"].
Proof.
  exact (proj1 (proj2 (proj2 (unreadable_document_empty_result
                                sample_tokenize sample_stopwords
                                unreadable_env "persona" "job" "bad.pdf" []
                                initial_world eq_refl eq_refl)))).
Defined.

(** The run of the specification's example: the first paragraph is ranked
    first, the filler paragraph is not selected. *)
Example climate_run :
  let result :=
    fst (intelligent_document_analyst sample_tokenize sample_stopwords
           sample_env "/app/input/report.pdf" "climate scientist"
           "assess risk" initial_world) in
  extracted_sections result
  = [ {| rs_document := "report.pdf"; rs_page_number := 1;
         section_title := "Climate risk."; importance_rank := 1 |} ]
  /\ sub_section_analysis result
     = [ {| ex_document := "report.pdf"; ex_page_number := 1;
            refined_text := "Climate risk." |} ].
Proof. vm_compute. split; reflexivity. Qed.

Example scores_tie_keeps_order :
  List.map (fun a => paragraph_index (item a))
    (selected_units sample_tokenize {[ "risk" ]}
       (page_units "doc.pdf"
          {| pd_page_number := 1;
             pd_text := "no match" +:+ Str.NLNL +:+ "risk one"
                        +:+ Str.NLNL +:+ "risk" +:+ Str.NLNL +:+ "risk two" |}))
  = [2; 1; 3].
Proof. vm_compute. reflexivity. Qed.


(** * Further properties of the program *)

(** ** Normalization and keywords *)

Lemma char_lower_idempotent (c : ascii) :
  Char.lower (Char.lower c) = Char.lower c.
Proof. destruct c as [[] [] [] [] [] [] [] []]; vm_compute; reflexivity. Qed.

Lemma lower_idempotent (s : string) : Str.lower (Str.lower s) = Str.lower s.
Proof.
  unfold Str.lower. induction s as [|c s IH]; simpl; [reflexivity|].
  rewrite char_lower_idempotent, IH. reflexivity.
Qed.

Lemma filter_len_le (f : ascii -> bool) (s : string) :
  Str.len (Str.filter f s) <= Str.len s.
Proof.
  induction s as [|c s IH]; simpl; [lia|]. destruct (f c); simpl; lia.
Qed.

Lemma map_len (f : ascii -> ascii) (s : string) :
  Str.len (Str.map f s) = Str.len s.
Proof. induction s as [|c s IH]; simpl; [reflexivity | rewrite IH; reflexivity]. Qed.

(** X1. A normalized text holds only the characters a-z, 0-9 and white
    space and is never longer than the text; the texts that normalization
    leaves unchanged are exactly those made of such characters. *)
Theorem preprocess_text_alphabet (s : string) :
  Str.forallb keep_char (preprocess_text s) = true
  /\ Str.len (preprocess_text s) <= Str.len s
  /\ (preprocess_text s = s <-> Str.forallb keep_char s = true).
Proof.
  assert (Hall : Str.forallb keep_char (preprocess_text s) = true)
    by apply filter_keep_all.
  split; [exact Hall|]. split.
  - unfold preprocess_text. etransitivity; [apply filter_len_le|].
    unfold Str.lower. rewrite map_len. reflexivity.
  - split.
    + intros Heq. rewrite Heq in Hall. exact Hall.
    + intros Hs. unfold preprocess_text.
      rewrite (lower_keep_fixed s Hs). apply filter_keep_fixed, Hs.
Qed.

Section Keywords.

Variable word_tokenize : string -> list string.
Variable stopwords_english : list string.

(** X2. A word is a keyword of a description exactly when it is a token of
    the lower-cased description, is alphanumeric, and is not a stop word;
    in particular no keyword is empty. *)
Theorem get_keywords_elem (description w : string) :
  w ∈ get_keywords word_tokenize stopwords_english description
  <-> w ∈ word_tokenize (Str.lower description)
      /\ Str.isalnum w = true
      /\ (w ∉ stopwords_english)
      /\ w <> "".
Proof.
  unfold get_keywords.
  rewrite elem_of_list_to_set, list_elem_of_In, filter_In, <- list_elem_of_In.
  rewrite andb_true_iff, negb_true_iff, bool_decide_eq_false.
  rewrite elem_of_list_to_set.
  split.
  - intros (Hw & Ha & Hs). repeat split; try assumption.
    intros ->. discriminate.
  - intros (Hw & Ha & Hs & _). repeat split; assumption.
Qed.

(** X3. Keyword extraction ignores letter case: a description and its
    lower-cased form give the same keywords. *)
Theorem get_keywords_case_insensitive (description : string) :
  get_keywords word_tokenize stopwords_english (Str.lower description)
  = get_keywords word_tokenize stopwords_english description.
Proof. unfold get_keywords. rewrite lower_idempotent. reflexivity. Qed.

(** X4. With a tokenizer that finds no token in the empty string, the empty
    description has no keyword, and two empty descriptions give the empty
    combined keyword set. *)
Theorem get_keywords_empty_description :
  word_tokenize "" = [] ->
  get_keywords word_tokenize stopwords_english "" = ∅
  /\ combined_keywords word_tokenize stopwords_english "" "" = ∅.
Proof.
  intros Hnil.
  assert (H : get_keywords word_tokenize stopwords_english "" = ∅).
  { unfold get_keywords. change (Str.lower "") with "". rewrite Hnil.
    reflexivity. }
  split; [exact H|]. unfold combined_keywords. rewrite H.
  apply union_empty_l_L.
Qed.

End Keywords.

Lemma get_keywords_empty_description_witness :
  get_keywords sample_tokenize sample_stopwords "" = ∅
  /\ combined_keywords sample_tokenize sample_stopwords "" "" = ∅.
Proof.
  exact (get_keywords_empty_description sample_tokenize sample_stopwords
           eq_refl).
Defined.

Example get_keywords_sample :
  elements (get_keywords sample_tokenize sample_stopwords
              "The Climate of a Scientist ok!")
  = ["scientist"; "climate"].
Proof. vm_compute. reflexivity. Qed.

(** ** The score as a quotient *)

Section ScoreShape.

Variable word_tokenize : string -> list string.

Let hits (keywords : gset string) (text : string) : gset string :=
  list_to_set
    (List.filter (fun word => bool_decide (word ∈ keywords))
       (word_tokenize (preprocess_text text))).

Lemma hits_elem keywords text w :
  w ∈ hits keywords text
  <-> w ∈ word_tokenize (preprocess_text text) /\ w ∈ keywords.
Proof.
  unfold hits. rewrite elem_of_list_to_set, list_elem_of_In, filter_In.
  rewrite bool_decide_eq_true, list_elem_of_In. reflexivity.
Qed.

Lemma hits_size_le keywords text :
  size (hits keywords text) <= length (word_tokenize (preprocess_text text)).
Proof.
  unfold hits. etransitivity; [apply size_list_to_set_le|].
  apply filter_length_le.
Qed.

(** The two ways out of [calculate_relevance_score]. *)
Lemma score_cases (text : string) (keywords : gset string) :
  (calculate_relevance_score word_tokenize text keywords = 0%Q
   /\ (text = "" \/ keywords = ∅
       \/ word_tokenize (preprocess_text text) = []))
  \/ (text <> "" /\ keywords <> ∅
      /\ word_tokenize (preprocess_text text) <> []
      /\ calculate_relevance_score word_tokenize text keywords
         = (Z.of_nat (size (hits keywords text))
              # Pos.of_nat (length (word_tokenize (preprocess_text text))))%Q).
Proof.
  unfold calculate_relevance_score.
  destruct (Str.is_empty text) eqn:He.
  { left. apply is_empty_true in He. auto. }
  apply is_empty_false in He.
  destruct (decide (keywords = ∅)) as [Hk | Hk].
  { left. rewrite (bool_decide_eq_true_2 _ Hk). auto. }
  rewrite (bool_decide_eq_false_2 _ Hk). cbn [orb].
  destruct (decide (word_tokenize (preprocess_text text) = [])) as [Ht | Ht].
  { left. rewrite (bool_decide_eq_true_2 _ Ht). auto. }
  right. rewrite (bool_decide_eq_false_2 _ Ht). auto.
Qed.

(** X5. Whatever the text, the keywords and the tokenizer, the score lies
    between 0 and 1. *)
Theorem score_bounds (text : string) (keywords : gset string) :
  (0 <= calculate_relevance_score word_tokenize text keywords
   /\ calculate_relevance_score word_tokenize text keywords <= 1)%Q.
Proof.
  destruct (score_cases text keywords) as [[-> _] | (_ & _ & Ht & ->)].
  - split; discriminate.
  - pose proof (hits_size_le keywords text) as Hle.
    assert (Hl : length (word_tokenize (preprocess_text text)) <> 0).
    { destruct (word_tokenize (preprocess_text text));
        [contradiction | simpl; lia]. }
    unfold Qle. simpl. rewrite (pos_of_nat_Z _ Hl). lia.
Qed.

(** X6. The score is positive exactly when the text is not empty and one of
    its normalized tokens is a keyword; otherwise it is 0.  These are the
    units that the ranking keeps. *)
Theorem score_positive_iff (text : string) (keywords : gset string) :
  ((0 < calculate_relevance_score word_tokenize text keywords)%Q
   <-> text <> ""
       /\ exists w, w ∈ keywords /\ w ∈ word_tokenize (preprocess_text text))
  /\ (~ (0 < calculate_relevance_score word_tokenize text keywords)%Q
      -> (calculate_relevance_score word_tokenize text keywords == 0)%Q).
Proof.
  destruct (score_cases text keywords)
    as [[Hz Hwhy] | (He & Hk & Ht & Hq)].
  - rewrite Hz. split; [|reflexivity].
    split; [intros H; exfalso; exact (Qlt_irrefl _ H)|].
    intros (He & w & Hwk & Hwt). exfalso.
    destruct Hwhy as [-> | [-> | Hnil]].
    + contradiction.
    + exact (not_elem_of_empty _ Hwk).
    + rewrite Hnil in Hwt. inversion Hwt.
  - assert (Hl : length (word_tokenize (preprocess_text text)) <> 0).
    { destruct (word_tokenize (preprocess_text text));
        [contradiction | simpl; lia]. }
    assert (Hpos : (0 < calculate_relevance_score word_tokenize text keywords)%Q
                   <-> 0 < size (hits keywords text)).
    { rewrite Hq. unfold Qlt. simpl. lia. }
    split.
    + rewrite Hpos. split.
      * intros Hs. split; [exact He|].
        apply size_pos_elem_of in Hs as [w Hw].
        apply hits_elem in Hw as [? ?]. eauto.
      * intros (_ & w & Hwk & Hwt).
        assert (Hin : w ∈ hits keywords text) by (apply hits_elem; auto).
        destruct (size (hits keywords text)) eqn:E; [|lia].
        apply size_empty_inv in E. rewrite E in Hin.
        exfalso. exact (not_elem_of_empty _ Hin).
    + intros Hn. rewrite Hpos in Hn. rewrite Hq.
      assert (E : size (hits keywords text) = 0) by lia.
      rewrite E. reflexivity.
Qed.

(** X7. Adding keywords never lowers the score of a text. *)
Theorem score_keywords_monotone (text : string) (keywords keywords' : gset string) :
  keywords ⊆ keywords' ->
  (calculate_relevance_score word_tokenize text keywords
   <= calculate_relevance_score word_tokenize text keywords')%Q.
Proof.
  intros Hsub.
  destruct (score_cases text keywords) as [[-> _] | (He & Hk & Ht & ->)].
  { destruct (score_cases text keywords') as [[-> _] | (_ & _ & _ & ->)];
      [apply Qle_refl|]. unfold Qle. simpl. lia. }
  destruct (score_cases text keywords') as [[_ Hwhy] | (_ & _ & _ & ->)].
  { exfalso. destruct Hwhy as [? | [-> | ?]]; try contradiction.
    apply Hk. apply equiv_empty_L. exact Hsub. }
  assert (Hle : size (hits keywords text) <= size (hits keywords' text)).
  { apply subseteq_size. intros w. rewrite !hits_elem.
    intros [? ?]. split; [assumption | apply Hsub; assumption]. }
  unfold Qle. simpl. nia.
Qed.

End ScoreShape.

Lemma score_keywords_monotone_witness :
  (calculate_relevance_score sample_tokenize "climate risk today"
     {[ "risk" ]}
   <= calculate_relevance_score sample_tokenize "climate risk today"
        ({[ "risk" ]} ∪ {[ "climate" ]}))%Q.
Proof.
  apply (score_keywords_monotone sample_tokenize "climate risk today"
           {[ "risk" ]} ({[ "risk" ]} ∪ {[ "climate" ]})).
  apply union_subseteq_l.
Defined.

(** ** Shape of the title *)



Lemma lacks_append (c : ascii) (a b : string) :
  lacks c (a +:+ b) = lacks c a && lacks c b.
Proof.
  unfold lacks. induction a as [|x a IH]; [reflexivity|].
  change (String x a +:+ b) with (String x (a +:+ b)). simpl.
  rewrite IH, andb_assoc. reflexivity.
Qed.

Lemma lacks_take (c : ascii) (n : nat) (s : string) :
  lacks c s = true -> lacks c (Str.take n s) = true.
Proof.
  unfold lacks. revert s.
  induction n as [|n IH]; intros [|x s]; simpl; try reflexivity.
  intros [Hx Hs]%andb_prop. rewrite Hx. simpl. apply IH, Hs.
Qed.

Lemma lacks_lstrip (c : ascii) (s : string) :
  lacks c s = true -> lacks c (Str.lstrip s) = true.
Proof.
  unfold lacks. induction s as [|x s IH]; simpl; [reflexivity|].
  intros H. destruct (Char.isspace x); [|exact H].
  apply andb_prop in H as [_ H]. apply IH, H.
Qed.

Lemma lacks_rstrip (c : ascii) (s : string) :
  lacks c s = true -> lacks c (Str.rstrip s) = true.
Proof.
  unfold lacks. induction s as [|x s IH]; simpl; [reflexivity|].
  intros [Hx Hs]%andb_prop. specialize (IH Hs).
  destruct (Str.rstrip s) as [|y r].
  - destruct (Char.isspace x); simpl; [reflexivity|]. rewrite Hx. reflexivity.
  - change (negb (Ascii.eqb x c) && Str.forallb (fun x0 => negb (Ascii.eqb x0 c))
                                    (String y r) = true).
    rewrite Hx. exact IH.
Qed.

Lemma lacks_strip (c : ascii) (s : string) :
  lacks c s = true -> lacks c (Str.strip s) = true.
Proof. intros H. apply lacks_rstrip, lacks_lstrip, H. Qed.

Lemma startswith_nil (s : string) : Str.startswith s "" = true.
Proof. destruct s; reflexivity. Qed.

(** The first piece of a split at newlines holds no newline. *)
Lemma first_split_lines_lacks_newline (s : string) :
  lacks Char.newline (first (Str.split s Str.NL)) = true.
Proof.
  unfold Str.split, Str.NL, first.
  induction s as [|c s IH]; [reflexivity|].
  cbn [Str.split_from Str.startswith Str.len].
  destruct (Ascii.eqb Char.newline c) eqn:E;
    [rewrite startswith_nil; reflexivity|].
  destruct (Str.split_from (String Char.newline "") 0 s) as [|p ps];
    cbn [hd] in *; unfold lacks in *; simpl.
  - rewrite Ascii.eqb_sym, E. reflexivity.
  - rewrite Ascii.eqb_sym, E. exact IH.
Qed.

Lemma first_line_lacks_newline (text : string) :
  lacks Char.newline (first_line_of text) = true.
Proof. apply lacks_strip, first_split_lines_lacks_newline. Qed.

Lemma append_empty_r (s : string) : s +:+ "" = s.
Proof.
  induction s as [|c s IH]; [reflexivity|].
  change (String c (s +:+ "") = String c s). rewrite IH. reflexivity.
Qed.

Lemma rsplit1_first (s : string) (sep : ascii) :
  exists after, s = first (Str.rsplit1 s sep) +:+ after.
Proof.
  unfold Str.rsplit1.
  destruct (Str.rpartition sep s) as [[b a]|] eqn:E.
  - apply rpartition_some in E as [-> _]. eexists. reflexivity.
  - exists "". simpl. symmetry. apply append_empty_r.
Qed.


(** X9. A title is a single line: it holds no newline character. *)
Theorem title_single_line (text : string) (max_length : nat) :
  lacks Char.newline (get_section_title_from_text text max_length) = true.
Proof.
  unfold get_section_title_from_text.
  destruct (Str.is_empty text); [reflexivity|].
  destruct (Str.is_empty (first_line_of text)); [reflexivity|].
  cbn [negb]. destruct (max_length <? Str.len (first_line_of text)).
  - rewrite lacks_append. apply andb_true_intro. split; [|reflexivity].
    destruct (rsplit1_first (Str.take max_length (first_line_of text))
                Char.space) as [after Hcut].
    pose proof (lacks_take Char.newline max_length _
                  (first_line_lacks_newline text)) as Hl.
    rewrite Hcut, lacks_append in Hl. apply andb_prop in Hl as [Hl _].
    exact Hl.
  - apply first_line_lacks_newline.
Qed.

(** ** Extraction and segmentation, unit by unit *)

Lemma collect_pages_elem (texts : list (option string)) (i : nat) p :
  p ∈ collect_pages i texts
  <-> exists k t, texts !! k = Some (Some t) /\ t <> ""
                  /\ p = {| pd_page_number := i + k + 1; pd_text := t |}.
Proof.
  revert i. induction texts as [|x texts IH]; intros i.
  - simpl. split; [intros H; inversion H | intros (k & t & H & _)].
    rewrite lookup_nil in H. discriminate.
  - assert (Hrest : p ∈ collect_pages (S i) texts
                    <-> exists k t, (x :: texts) !! S k = Some (Some t)
                                    /\ t <> ""
                                    /\ p = {| pd_page_number := i + S k + 1;
                                              pd_text := t |}).
    { rewrite IH. split; intros (k & t & H1 & H2 & ->); exists k, t;
        (split; [exact H1|]; split; [exact H2|]; f_equal; lia). }
    assert (Hskip : (x = None \/ x = Some "") ->
                    p ∈ collect_pages i (x :: texts)
                    <-> p ∈ collect_pages (S i) texts).
    { intros [-> | ->]; reflexivity. }
    destruct x as [[|c t]|].
    + rewrite Hskip, Hrest by auto. split.
      * intros (k & t & ?). exists (S k), t. assumption.
      * intros ([|k] & t & H1 & H2 & H3); [|eauto].
        simpl in H1. injection H1 as <-. contradiction.
    + cbn [collect_pages]. rewrite elem_of_cons, Hrest. split.
      * intros [-> | (k & t' & ?)].
        -- exists 0, (String c t). repeat split; [discriminate|].
           f_equal. lia.
        -- exists (S k), t'. assumption.
      * intros ([|k] & t' & H1 & H2 & H3).
        -- left. simpl in H1. injection H1 as <-. rewrite H3. f_equal. lia.
        -- right. eauto.
    + rewrite Hskip, Hrest by auto. split.
      * intros (k & t & ?). exists (S k), t. assumption.
      * intros ([|k] & t & H1 & H2 & H3); [|eauto].
        simpl in H1. discriminate.
Qed.

(** X10. For a readable document, extraction returns exactly the pages
    whose extracted text is a non-empty string, each with its 1-based
    position in the document, and leaves the world as it was. *)
Theorem extract_text_from_pdf_pages env pdf_path texts w :
  pdfplumber_open env pdf_path = Pages texts ->
  snd (extract_text_from_pdf env pdf_path w) = w
  /\ forall p,
       p ∈ fst (extract_text_from_pdf env pdf_path w)
       <-> exists k t, texts !! k = Some (Some t) /\ t <> ""
                       /\ p = {| pd_page_number := k + 1; pd_text := t |}.
Proof.
  intros Hpdf. unfold extract_text_from_pdf. rewrite Hpdf.
  split; [reflexivity|]. intros p. simpl. apply collect_pages_elem.
Qed.

Lemma rstrip_idempotent (s : string) : Str.rstrip (Str.rstrip s) = Str.rstrip s.
Proof.
  induction s as [|c s IH]; [reflexivity|]. simpl.
  destruct (Str.rstrip s) as [|y r] eqn:E.
  - destruct (Char.isspace c) eqn:Hc; [reflexivity|]. simpl.
    rewrite Hc. reflexivity.
  - change (Str.rstrip (String c (String y r)))
      with (match Str.rstrip (String y r) with
            | "" => if Char.isspace c then "" else String c ""
            | String a b => String c (String a b)
            end).
    rewrite IH. reflexivity.
Qed.

Lemma strip_idempotent (s : string) : Str.strip (Str.strip s) = Str.strip s.
Proof.
  destruct (has_content s) eqn:Hs.
  - destruct (lstrip_head s Hs) as (c & r & Hl & Hc).
    destruct (rstrip_head c r Hc) as (r' & Hr).
    unfold Str.strip. rewrite Hl, Hr.
    assert (Hfix : Str.lstrip (String c r') = String c r')
      by (simpl; rewrite Hc; reflexivity).
    rewrite Hfix, <- Hr. apply rstrip_idempotent.
  - apply strip_empty in Hs. rewrite Hs. reflexivity.
Qed.

Section UnitsOfPage.

Variable doc_name : string.
Variable page : nat.

Let unit_of (n : nat) (p : string) : ContentUnit :=
  {| document := doc_name; page_number := page;
     text_content := Str.strip p; paragraph_index := n |}.

Lemma units_of_paragraphs (l : list string) (g : nat -> nat) :
  Forall (fun p => has_content p = true) l ->
  concat
    (imap (fun i q =>
             if Str.is_empty q then []
             else [ {| document := doc_name; page_number := page;
                       text_content := q; paragraph_index := g i |} ])
       (List.map Str.strip l))
  = imap (fun i p => unit_of (g i) p) l.
Proof.
  revert g. induction l as [|p l IH]; intros g Hl; [reflexivity|].
  apply Forall_cons in Hl as [Hp Hl].
  cbn [List.map]. rewrite !imap_cons. cbn [concat].
  apply strip_nonempty in Hp. rewrite Hp.
  cbn [app]. f_equal. apply (IH (fun i => g (S i)) Hl).
Qed.

End UnitsOfPage.

Lemma filter_Forall_true {A} (f : A -> bool) (l : list A) :
  Forall (fun x => f x = true) (List.filter f l).
Proof.
  apply Forall_forall. intros x Hx.
  apply list_elem_of_In, filter_In in Hx as [_ Hx]. exact Hx.
Qed.

(** X11. The units of a page are its non-blank pieces between blank lines,
    trimmed, in order, numbered 0, 1, 2, ... without gap; the fallback to
    the whole page and the test on the paragraph never change that. *)
Theorem page_units_paragraphs (doc_name : string) (page_data : PageData) :
  page_units doc_name page_data
  = imap (fun i p =>
            {| document := doc_name;
               page_number := pd_page_number page_data;
               text_content := Str.strip p;
               paragraph_index := i |})
      (List.filter has_content (Str.split (pd_text page_data) Str.NLNL)).
Proof.
  destruct (has_content (pd_text page_data)) eqn:Ht.
  - unfold page_units, page_paragraphs. rewrite page_paragraphs_filter.
    pose proof Ht as He. rewrite <- split_blank_lines_has_content in He.
    destruct (filter_existsb _ _ He) as (x & l' & Hx & _).
    rewrite bool_decide_eq_false_2 by (rewrite Hx; discriminate).
    apply (units_of_paragraphs doc_name (pd_page_number page_data) _
             (fun i => i)), filter_Forall_true.
  - rewrite filter_not_existsb
      by (rewrite split_blank_lines_has_content; exact Ht).
    unfold page_units. rewrite (page_paragraphs_blank _ Ht). reflexivity.
Qed.

Lemma all_extracted_content_elem (doc_name : string)
  (pages_data : list PageData) (u : ContentUnit) :
  u ∈ all_extracted_content doc_name pages_data ->
  exists page_data i p,
    page_data ∈ pages_data /\ has_content p = true
    /\ u = {| document := doc_name;
              page_number := pd_page_number page_data;
              text_content := Str.strip p;
              paragraph_index := i |}.
Proof.
  intros Hu. unfold all_extracted_content in Hu.
  apply list_elem_of_In, in_concat in Hu as (us & Hus & Hu).
  apply in_map_iff in Hus as (pd & <- & Hpd).
  apply list_elem_of_In in Hu, Hpd.
  exists pd.
  assert (Heq := units_of_paragraphs doc_name (pd_page_number pd)
                   (List.filter has_content (Str.split (pd_text pd) Str.NLNL))
                   (fun i => i) (filter_Forall_true _ _)).
  destruct (has_content (pd_text pd)) eqn:Ht.
  - unfold page_units, page_paragraphs in Hu.
    rewrite page_paragraphs_filter in Hu.
    pose proof Ht as He. rewrite <- split_blank_lines_has_content in He.
    destruct (filter_existsb _ _ He) as (x & l' & Hx & _).
    rewrite bool_decide_eq_false_2 in Hu by (rewrite Hx; discriminate).
    rewrite Heq in Hu.
    apply list_elem_of_lookup in Hu as [i Hi].
    rewrite list_lookup_imap in Hi.
    destruct (List.filter has_content (Str.split (pd_text pd) Str.NLNL) !! i)
      as [p|] eqn:Hp; [|discriminate].
    injection Hi as <-. exists i, p. split; [exact Hpd|].
    split; [|reflexivity].
    apply list_elem_of_lookup_2, list_elem_of_In, filter_In in Hp as [_ Hp].
    exact Hp.
  - unfold page_units in Hu. rewrite (page_paragraphs_blank _ Ht) in Hu.
    inversion Hu.
Qed.

(** X12. Every content unit of a document carries the document name, the
    number of one of the extracted pages, and a text that is not empty and
    has no white space at either end. *)
Theorem all_extracted_content_units (doc_name : string)
  (pages_data : list PageData) :
  Forall (fun u =>
            document u = doc_name
            /\ (exists page_data, page_data ∈ pages_data
                                  /\ page_number u = pd_page_number page_data)
            /\ text_content u <> ""
            /\ Str.strip (text_content u) = text_content u)
    (all_extracted_content doc_name pages_data).
Proof.
  apply Forall_forall. intros u Hu.
  apply all_extracted_content_elem in Hu as (pd & i & p & Hpd & Hp & ->).
  simpl. split; [reflexivity|]. split; [eauto|]. split.
  - rewrite strip_empty, Hp. discriminate.
  - apply strip_idempotent.
Qed.

(** ** The selection *)

Lemma insert_by_score_descending x l :
  StronglySorted (fun a b => (score b <= score a)%Q) l ->
  StronglySorted (fun a b => (score b <= score a)%Q) (insert_by_score x l).
Proof.
  induction l as [|y l IH]; intros Hs; simpl.
  - repeat constructor.
  - apply StronglySorted_cons in Hs as [Hy Hs].
    destruct (Qle_bool (score y) (score x)) eqn:E.
    + apply Qle_bool_iff in E.
      constructor; [constructor; assumption|].
      constructor; [exact E|].
      eapply Forall_impl; [exact Hy|]. simpl. intros b Hb.
      eapply Qle_trans; [exact Hb | exact E].
    + constructor; [apply IH, Hs|].
      apply insert_by_score_Forall. split; [|exact Hy].
      apply Qlt_le_weak, Qnot_le_lt. intros H.
      apply Qle_bool_iff in H. congruence.
Qed.

(** Whatever the order of its input, the sort returns it by descending
    score. *)
Lemma sort_by_score_desc_descending l :
  StronglySorted (fun a b => (score b <= score a)%Q) (sort_by_score_desc l).
Proof.
  unfold sort_by_score_desc. induction l as [|x l IH]; simpl.
  - constructor.
  - apply insert_by_score_descending, IH.
Qed.

Section Selection.

Variable word_tokenize : string -> list string.

Let score_of (keywords : gset string) (u : ContentUnit) : Q :=
  calculate_relevance_score word_tokenize (text_content u) keywords.

Let positive (keywords : gset string) (u : ContentUnit) : bool :=
  negb (Qle_bool (score_of keywords u) 0).

Lemma scored_content_filter (keywords : gset string) units :
  scored_content word_tokenize keywords units
  = List.map (fun u => {| item := u; score := score_of keywords u |})
      (List.filter (positive keywords) units).
Proof.
  induction units as [|u units IH]; simpl; [reflexivity|].
  unfold positive at 1. unfold score_of at 1.
  destruct (negb _); simpl; rewrite IH; reflexivity.
Qed.

Lemma selected_units_length (keywords : gset string) units :
  length (selected_units word_tokenize keywords units)
  = Nat.min max_sections_to_output
      (length (List.filter (positive keywords) units)).
Proof.
  unfold selected_units. rewrite length_take.
  rewrite (Permutation_length (sort_by_score_desc_Permutation _)).
  rewrite scored_content_filter, length_map. reflexivity.
Qed.

(** X13. The selection is a top ten: the units with a positive score split
    into the selected ones and the others, no other unit scores higher
    than a selected one, and the selected ones number ten, or all the
    positive ones when these are fewer. *)
Theorem selected_units_top (keywords : gset string) units :
  let scored := scored_content word_tokenize keywords units in
  let selected := selected_units word_tokenize keywords units in
  length selected
  = Nat.min max_sections_to_output
      (length (List.filter (positive keywords) units))
  /\ exists others,
       selected ++ others ≡ₚ scored
       /\ forall a b, a ∈ selected -> b ∈ others -> (score b <= score a)%Q.
Proof.
  intros scored selected. split; [apply selected_units_length|].
  - exists (drop max_sections_to_output (sort_by_score_desc scored)).
    unfold selected, selected_units. fold scored. split.
    + rewrite take_drop. apply sort_by_score_desc_Permutation.
    + intros a b Ha Hb.
      pose proof (sort_by_score_desc_descending scored) as Hs.
      rewrite <- (take_drop max_sections_to_output) in Hs.
      exact (StronglySorted_app_1_elem_of _ _ _ _ _ Hs Ha Hb).
Qed.

(** X14. The unit ranked first has the highest score of the document: no
    content unit scores more. *)
Theorem first_selected_is_best (keywords : gset string) units a :
  selected_units word_tokenize keywords units !! 0 = Some a ->
  forall u, u ∈ units ->
    (calculate_relevance_score word_tokenize (text_content u) keywords
     <= score a)%Q.
Proof.
  intros Ha u Hu.
  pose proof (sort_by_score_desc_descending
                (scored_content word_tokenize keywords units)) as Hs.
  pose proof (sort_by_score_desc_Permutation
                (scored_content word_tokenize keywords units)) as Hp.
  unfold selected_units in Ha.
  destruct (sort_by_score_desc (scored_content word_tokenize keywords units))
    as [|x rest] eqn:E; [discriminate|].
  simpl in Ha. injection Ha as ->.
  apply StronglySorted_cons in Hs as [Hrest _].
  destruct (positive keywords u) eqn:Hpos.
  - assert (Hin : {| item := u; score := score_of keywords u |}
                    ∈ a :: rest).
    { rewrite Hp, scored_content_filter.
      apply list_elem_of_In, in_map_iff. exists u. split; [reflexivity|].
      apply filter_In. split; [apply list_elem_of_In, Hu | exact Hpos]. }
    apply elem_of_cons in Hin as [<- | Hin]; [apply Qle_refl|].
    rewrite Forall_forall in Hrest. apply (Hrest _ Hin).
  - assert (Hle : (score_of keywords u <= 0)%Q).
    { unfold positive in Hpos. apply negb_false_iff, Qle_bool_iff in Hpos.
      exact Hpos. }
    assert (Hapos : (0 < score a)%Q).
    { pose proof (scored_content_Forall word_tokenize keywords units) as Hf.
      rewrite Forall_forall in Hf.
      assert (Hain : a ∈ scored_content word_tokenize keywords units)
        by (rewrite <- Hp; left).
      apply (Hf a Hain). }
    eapply Qle_trans; [exact Hle | apply Qlt_le_weak, Hapos].
Qed.

Lemma selected_units_nil_iff (keywords : gset string) units :
  selected_units word_tokenize keywords units = []
  <-> forall u, u ∈ units -> ~ (0 < score_of keywords u)%Q.
Proof.
  rewrite <- length_zero_iff_nil, selected_units_length.
  unfold max_sections_to_output.
  assert (Hmin : forall n, Nat.min 10 n = 0 <-> n = 0) by (intros; lia).
  rewrite Hmin, length_zero_iff_nil. split.
  - intros Hnil u Hu Hpos.
    assert (Hin : In u (List.filter (positive keywords) units)).
    { apply filter_In. split; [apply list_elem_of_In, Hu|].
      unfold positive. apply negb_true_iff.
      destruct (Qle_bool (score_of keywords u) 0) eqn:E; [|reflexivity].
      apply Qle_bool_iff in E. exfalso.
      exact (Qlt_irrefl _ (Qlt_le_trans _ _ _ Hpos E)). }
    rewrite Hnil in Hin. exact Hin.
  - intros Hall.
    destruct (List.filter (positive keywords) units) as [|u l] eqn:E;
      [reflexivity|]. exfalso.
    assert (Hin : In u (List.filter (positive keywords) units))
      by (rewrite E; left; reflexivity).
    apply filter_In in Hin as [Hu Hpos]. apply (Hall u).
    + apply list_elem_of_In, Hu.
    + unfold positive in Hpos. apply negb_true_iff in Hpos.
      apply Qnot_le_lt. intros Hle. apply Qle_bool_iff in Hle. congruence.
Qed.

End Selection.

(** ** The returned record *)

Lemma output_lists_aligned (selected : list ScoredUnit) (g : nat -> nat) :
  Forall2
    (fun s e =>
       rs_document s = ex_document e
       /\ rs_page_number s = ex_page_number e
       /\ section_title s
          = get_section_title_from_text (refined_text e) default_max_length)
    (imap (fun i it =>
             {| rs_document := document (item it);
                rs_page_number := page_number (item it);
                section_title :=
                  get_section_title_from_text (text_content (item it))
                    default_max_length;
                importance_rank := g i |}) selected)
    (output_sub_sections selected).
Proof.
  revert g. induction selected as [|x l IH]; intros g; [constructor|].
  rewrite imap_cons. simpl. constructor; [auto|].
  apply (IH (fun i => g (S i))).
Qed.

Lemma output_sections_nil (selected : list ScoredUnit) :
  output_sections selected = [] <-> selected = [].
Proof.
  rewrite <- !length_zero_iff_nil. unfold output_sections.
  rewrite length_imap. reflexivity.
Qed.

Lemma output_sub_sections_nil (selected : list ScoredUnit) :
  output_sub_sections selected = [] <-> selected = [].
Proof.
  rewrite <- !length_zero_iff_nil. unfold output_sub_sections.
  rewrite length_map. reflexivity.
Qed.

Section Record.

Variable word_tokenize : string -> list string.
Variable stopwords_english : list string.

(** X15. The ranked sections of a run are empty exactly when no content
    unit of the document scores above 0, and exactly when the excerpts are
    empty. *)
Theorem run_empty_iff env document_path persona_description job_to_be_done w :
  let units :=
    all_extracted_content (basename document_path)
      (fst (extract_text_from_pdf env document_path w)) in
  let keywords :=
    combined_keywords word_tokenize stopwords_english
      persona_description job_to_be_done in
  let result :=
    fst (intelligent_document_analyst word_tokenize stopwords_english env
           document_path persona_description job_to_be_done w) in
  (extracted_sections result = []
   <-> forall u, u ∈ units ->
         ~ (0 < calculate_relevance_score word_tokenize (text_content u)
                  keywords)%Q)
  /\ (extracted_sections result = [] <-> sub_section_analysis result = []).
Proof.
  intros units keywords result.
  destruct (analyst_result word_tokenize stopwords_english env document_path
              persona_description job_to_be_done w) as [Hsec Hsub].
  fold units keywords result in Hsec, Hsub. rewrite Hsec, Hsub.
  rewrite output_sections_nil, output_sub_sections_nil.
  split; [apply selected_units_nil_iff | reflexivity].
Qed.

(** X16. In the record of a run the excerpts stand in the order of the
    ranked sections: the two lists pair up, each pair has the same document
    and page, and the title of the section is the title derived from the
    text of the excerpt; every section names the document of the run, and
    the metadata repeat the document name, the persona, the job and the
    time read from the clock. *)
Theorem run_record_aligned env document_path persona_description
  job_to_be_done w :
  let result :=
    fst (intelligent_document_analyst word_tokenize stopwords_english env
           document_path persona_description job_to_be_done w) in
  Forall2
    (fun s e =>
       rs_document s = ex_document e
       /\ rs_page_number s = ex_page_number e
       /\ section_title s
          = get_section_title_from_text (refined_text e) default_max_length)
    (extracted_sections result) (sub_section_analysis result)
  /\ Forall (fun s => rs_document s = basename document_path)
       (extracted_sections result)
  /\ metadata result
     = {| input_document := basename document_path;
          persona := persona_description;
          job_to_be_done := job_to_be_done;
          processing_timestamp := clock w |}.
Proof.
  intros result.
  destruct (analyst_result word_tokenize stopwords_english env document_path
              persona_description job_to_be_done w) as [Hsec Hsub].
  fold result in Hsec, Hsub. rewrite Hsec, Hsub.
  split; [apply output_lists_aligned|]. split.
  - set (keywords := combined_keywords _ _ _ _).
    set (units := all_extracted_content _ _).
    pose proof (selected_units_Forall word_tokenize keywords units) as Hf.
    unfold output_sections. apply Forall_forall. intros s Hs.
    apply list_elem_of_lookup in Hs as [i Hi].
    rewrite list_lookup_imap in Hi.
    destruct (selected_units word_tokenize keywords units !! i) as [a|] eqn:Ha;
      [|discriminate].
    injection Hi as <-. simpl.
    rewrite Forall_forall in Hf.
    destruct (Hf a (list_elem_of_lookup_2 _ _ _ Ha)) as [Hin _].
    apply all_extracted_content_elem in Hin as (pd & j & p & _ & _ & ->).
    reflexivity.
  - subst result. unfold intelligent_document_analyst, extract_text_from_pdf,
      bind.
    destruct (pdfplumber_open env document_path); reflexivity.
Qed.

End Record.

(** ** Paths and file names *)

Lemma lacks_rpartition (c : ascii) (s : string) :
  lacks c s = true -> Str.rpartition c s = None.
Proof.
  unfold lacks. induction s as [|x s IH]; simpl; [reflexivity|].
  intros [Hx Hs]%andb_prop. rewrite (IH Hs).
  apply negb_true_iff in Hx. rewrite Hx. reflexivity.
Qed.

Lemma rpartition_append (c : ascii) (a b : string) :
  lacks c b = true -> Str.rpartition c (a +:+ String c b) = Some (a, b).
Proof.
  intros Hb. induction a as [|x a IH].
  - change ("" +:+ String c b) with (String c b). simpl.
    rewrite (lacks_rpartition c b Hb), Ascii.eqb_refl. reflexivity.
  - change (String x a +:+ String c b) with (String x (a +:+ String c b)).
    simpl. rewrite IH. reflexivity.
Qed.

Lemma lacks_slash_startswith (filename : string) :
  lacks slash filename = true -> Str.startswith filename "/" = false.
Proof.
  destruct filename as [|x r]; [reflexivity|].
  unfold lacks. cbn [Str.forallb]. intros [Hx _]%andb_prop.
  apply negb_true_iff in Hx. unfold slash in Hx.
  cbn [Str.startswith]. rewrite Ascii.eqb_sym, Hx. reflexivity.
Qed.

Lemma path_join_input (filename : string) :
  lacks slash filename = true ->
  path_join INPUT_DIR filename = INPUT_DIR +:+ String slash filename.
Proof.
  intros Hf. unfold path_join. rewrite (lacks_slash_startswith _ Hf).
  reflexivity.
Qed.

Lemma path_join_output (filename : string) :
  lacks slash filename = true ->
  path_join OUTPUT_DIR filename = OUTPUT_DIR +:+ String slash filename.
Proof.
  intros Hf. unfold path_join. rewrite (lacks_slash_startswith _ Hf).
  reflexivity.
Qed.

(** X17. A file name without a slash is joined to the input directory as
    "/app/input/<name>", and the base name of that path is the file name
    again: the document name of a run is the name of its file. *)
Theorem basename_of_input_path (filename : string) :
  lacks slash filename = true ->
  path_join INPUT_DIR filename = "/app/input/" +:+ filename
  /\ basename (path_join INPUT_DIR filename) = filename.
Proof.
  intros Hf. rewrite (path_join_input _ Hf). split; [reflexivity|].
  unfold basename. rewrite (rpartition_append slash INPUT_DIR filename Hf).
  reflexivity.
Qed.

Lemma basename_of_input_path_witness :
  path_join INPUT_DIR "report.pdf" = "/app/input/report.pdf"
  /\ basename (path_join INPUT_DIR "report.pdf") = "report.pdf".
Proof. exact (basename_of_input_path "report.pdf" eq_refl). Defined.

Lemma drop_0 (s : string) : Str.drop 0 s = s.
Proof. destruct s; reflexivity. Qed.

(** X18. For a file name "<stem>.<ext>" without a slash, whose extension
    holds no dot, the root used for the output name is the stem, except
    when the stem consists of dots only (a hidden file such as ".pdf"):
    then the whole name is the root. *)
Theorem splitext_root_extension (stem ext : string) :
  lacks slash stem = true ->
  lacks slash ext = true ->
  lacks dot ext = true ->
  splitext_root (stem +:+ String dot ext)
  = if Str.forallb (Ascii.eqb dot) stem then stem +:+ String dot ext
    else stem.
Proof.
  intros Hs He Hd. unfold splitext_root.
  assert (Hslash : lacks slash (stem +:+ String dot ext) = true).
  { rewrite lacks_append, Hs. unfold lacks in *. simpl. exact He. }
  rewrite (lacks_rpartition _ _ Hslash), (rpartition_append dot stem ext Hd).
  rewrite drop_0. simpl. destruct (Str.forallb (Ascii.eqb dot) stem);
    reflexivity.
Qed.

Lemma splitext_root_extension_witness :
  splitext_root "archive.2024.PDF" = "archive.2024"
  /\ splitext_root ".pdf" = ".pdf".
Proof.
  split.
  - exact (splitext_root_extension "archive.2024" "PDF" eq_refl eq_refl eq_refl).
  - exact (splitext_root_extension "" "pdf" eq_refl eq_refl eq_refl).
Defined.

(** ** The batch *)

Section BatchRun.

Variable word_tokenize : string -> list string.
Variable stopwords_english : list string.
Variable env : environment.

Let pdf_files : list string :=
  List.filter (fun f => Str.endswith (Str.lower f) ".pdf") (listdir env).

Let output_path_of (filename : string) : string :=
  path_join OUTPUT_DIR (splitext_root filename +:+ ".json").

Let chosen_persona : string :=
  default "Default persona: a general researcher"
    (getenv env "PERSONA_DESCRIPTION").

Let chosen_job : string :=
  default "Default job: find the most relevant sections"
    (getenv env "JOB_TO_BE_DONE").

(** X19. When the input directory lists no file ending in ".pdf" (in any
    letter case), the program announces itself, says so and stops: no file
    is written, nothing goes to the error stream, the clock is not read. *)
Theorem main_without_pdf w :
  List.filter (fun f => Str.endswith (Str.lower f) ".pdf") (listdir env) = [] ->
  let w' := snd (main word_tokenize stopwords_english env w) in
  files w' = files w
  /\ stderr w' = stderr w
  /\ clock w' = clock w
  /\ stdout w'
     = stdout w ++ [MsgStarted; MsgUsingPersona chosen_persona;
                    MsgUsingJob chosen_job; MsgNoPdf].
Proof.
  intros Hnone w'. subst w'. unfold main, bind. simpl.
  rewrite Hnone. simpl. repeat split.
  rewrite <- !app_assoc. reflexivity.
Qed.

(** What one turn of the loop does to the written files. *)
Lemma process_file_files persona job filename w :
  exists r,
    files (snd (process_file word_tokenize stopwords_english env persona job
                  filename w))
    = if can_write env (output_path_of filename)
      then <[output_path_of filename := r]> (files w)
      else files w.
Proof.
  exists (fst (intelligent_document_analyst word_tokenize stopwords_english
                 env (path_join INPUT_DIR filename) persona job w)).
  unfold process_file, intelligent_document_analyst, extract_text_from_pdf,
    write_json, bind. fold (output_path_of filename).
  destruct (can_write env (output_path_of filename));
    destruct (pdfplumber_open env (path_join INPUT_DIR filename));
    reflexivity.
Qed.

(** X20. When the output file of a document cannot be written, its turn of
    the loop writes nothing, reports the failure of that document last on
    the error stream, prints only the processing notice, and the loop goes
    on with the remaining files. *)
Theorem process_file_unwritable persona job filename rest w :
  can_write env (output_path_of filename) = false ->
  let body := process_file word_tokenize stopwords_english env persona job in
  let w' := snd (body filename w) in
  files w' = files w
  /\ stdout w' = stdout w ++ [MsgProcessing filename]
  /\ (exists reported,
         stderr w' = stderr w ++ reported ++ [MsgFailed filename]
         /\ (reported = []
             \/ reported = [MsgExtractError (path_join INPUT_DIR filename)]))
  /\ for_each body (filename :: rest) w = for_each body rest w'.
Proof.
  intros Hw body w'. subst w' body.
  split; [|split; [|split]]; try apply for_each_cons;
    unfold process_file, intelligent_document_analyst, extract_text_from_pdf,
      write_json, bind; fold (output_path_of filename); rewrite Hw;
    destruct (pdfplumber_open env (path_join INPUT_DIR filename)); simpl;
    try reflexivity.
  - eexists. split; [|right; reflexivity]. rewrite <- app_assoc. reflexivity.
  - exists []. split; [reflexivity | left; reflexivity].
Qed.

Lemma for_each_files persona job (l : list string) w :
  let w' := snd (for_each (process_file word_tokenize stopwords_english env
                             persona job) l w) in
  (forall k, is_Some (files w !! k) -> is_Some (files w' !! k))
  /\ (forall f, f ∈ l -> can_write env (output_path_of f) = true ->
                is_Some (files w' !! output_path_of f))
  /\ (forall k, is_Some (files w' !! k) ->
                is_Some (files w !! k)
                \/ exists f, f ∈ l /\ k = output_path_of f
                             /\ can_write env k = true).
Proof.
  revert w. induction l as [|f l IH]; intros w; cbv zeta.
  - simpl. split; [auto|]. split; [|auto]. intros f Hf. inversion Hf.
  - rewrite for_each_cons.
    set (w1 := snd (process_file word_tokenize stopwords_english env persona
                      job f w)).
    destruct (process_file_files persona job f w) as [r Hr]. fold w1 in Hr.
    destruct (IH w1) as (Hkeep & Hnew & Honly).
    assert (Hstep : forall k, is_Some (files w !! k) -> is_Some (files w1 !! k)).
    { intros k Hk. rewrite Hr.
      destruct (can_write env (output_path_of f)); [|exact Hk].
      destruct (decide (output_path_of f = k)) as [-> | Hne].
      - rewrite lookup_insert_eq. eauto.
      - rewrite lookup_insert_ne by exact Hne. exact Hk. }
    split; [intros k Hk; apply Hkeep, Hstep, Hk|]. split.
    + intros g Hg Hw. apply elem_of_cons in Hg as [-> | Hg].
      * apply Hkeep. rewrite Hr, Hw, lookup_insert_eq. eauto.
      * apply Hnew; assumption.
    + intros k Hk. destruct (Honly k Hk) as [Hk1 | (g & Hg & -> & Hw)].
      * rewrite Hr in Hk1.
        destruct (can_write env (output_path_of f)) eqn:Hw; [|left; exact Hk1].
        destruct (decide (output_path_of f = k)) as [<- | Hne].
        -- right. exists f. split; [left|]. split; [reflexivity | exact Hw].
        -- rewrite lookup_insert_ne in Hk1 by exact Hne. left. exact Hk1.
      * right. exists g. split; [right; exact Hg|]. split; [reflexivity|].
        exact Hw.
Qed.

(** X21. A run of the program keeps every file that was there, writes a
    record for every listed PDF file whose output path can be written, and
    writes nothing else: each new file is the output path of a listed PDF
    file.  Files of the directory that do not end in ".pdf" are never
    read. *)
Theorem main_written_files w :
  let w' := snd (main word_tokenize stopwords_english env w) in
  (forall k, is_Some (files w !! k) -> is_Some (files w' !! k))
  /\ (forall f, f ∈ pdf_files -> can_write env (output_path_of f) = true ->
                is_Some (files w' !! output_path_of f))
  /\ (forall k, is_Some (files w' !! k) ->
                is_Some (files w !! k)
                \/ exists f, f ∈ pdf_files /\ k = output_path_of f
                             /\ can_write env k = true).
Proof.
  intros w'. subst w'. unfold main, bind. simpl.
  fold chosen_persona chosen_job pdf_files.
  destruct (decide (pdf_files = [])) as [Hnil | Hne].
  - rewrite (bool_decide_eq_true_2 _ Hnil). simpl. rewrite Hnil.
    split; [auto|]. split; [|auto]. intros f Hf. inversion Hf.
  - rewrite (bool_decide_eq_false_2 _ Hne).
    match goal with
    | |- context [for_each ?body pdf_files ?w0] =>
        pose proof (for_each_files chosen_persona chosen_job pdf_files w0)
          as Hfe;
        destruct (for_each body pdf_files w0) as [u w1]
    end.
    simpl in *. exact Hfe.
Qed.

End BatchRun.

(** ** The further theorems on concrete inputs *)

(** The one page of the sample document. *)
Lemma extract_text_from_pdf_pages_witness :
  snd (extract_text_from_pdf sample_env "/app/input/report.pdf" initial_world)
  = initial_world.
Proof.
  exact (proj1 (extract_text_from_pdf_pages sample_env "/app/input/report.pdf"
                  [Some sample_page] initial_world eq_refl)).
Defined.

(** Two paragraphs matching the keyword: the shorter one is first, the
    longer one scores no more. *)
Lemma first_selected_is_best_witness :
  (calculate_relevance_score sample_tokenize "risk one" {[ "risk" ]} <= 1)%Q.
Proof.
  exact (first_selected_is_best sample_tokenize {[ "risk" ]}
           [ {| document := "doc.pdf"; page_number := 1;
                text_content := "risk one"; paragraph_index := 0 |};
             {| document := "doc.pdf"; page_number := 1;
                text_content := "risk"; paragraph_index := 1 |} ]
           {| item := {| document := "doc.pdf"; page_number := 1;
                         text_content := "risk"; paragraph_index := 1 |};
              score := 1 |}
           eq_refl
           {| document := "doc.pdf"; page_number := 1;
              text_content := "risk one"; paragraph_index := 0 |}
           (list_elem_of_here _ _)).
Defined.

(** A directory of text and CSV files. *)
Lemma main_without_pdf_witness :
  files (snd (main sample_tokenize sample_stopwords no_pdf_env initial_world))
  = ∅.
Proof.
  exact (proj1 (main_without_pdf sample_tokenize sample_stopwords no_pdf_env
                  initial_world eq_refl)).
Defined.

(** The sample document under a read-only output directory. *)
Lemma process_file_unwritable_witness :
  files (snd (process_file sample_tokenize sample_stopwords read_only_env
                "persona" "job" "report.pdf" initial_world))
  = ∅.
Proof.
  exact (proj1 (process_file_unwritable sample_tokenize sample_stopwords
                  read_only_env "persona" "job" "report.pdf" []
                  initial_world eq_refl)).
Defined.
